(** * sdl2.ext.draw: software-surface drawing routines

    A shallow embedding of [src/sdl2/ext/draw.py] ([prepare_color], [fill],
    [line]) together with the properties stated about it.

    Python integers are [Z]; the floating point values produced by the
    clipping routine and by [pitch / bpp] are modelled by exact rationals
    [Q].  The pixel memory of the target surface and the sequence of SDL
    calls issued are threaded explicitly through a small state-and-error
    monad, so that what has been written before an exception is raised
    remains observable. *)

From Stdlib Require Import ZArith QArith Qminmax List Bool Lia Lqa.
Import ListNotations.

Local Open Scope Z_scope.

(** ** Exceptions *)

(** The two messages with which [line] raises [UnsupportedError]. *)
Inductive unsupported_msg : Type :=
| Msg24bpp      (* "24bpp are currently not supported" *)
| MsgWidth.     (* "width > 1 is not supported" *)

(** The three messages with which [fill] and [line] raise [ValueError]. *)
Inductive value_msg : Type :=
| MsgArea       (* "Fill areas must be specified as either ..." *)
| MsgWidthLow   (* "width must be greater than 0" *)
| MsgPoints.    (* "line does not contain a valid set of points" *)

Inductive exn : Type :=
| TypeError
| ValueError (m : value_msg)
| ZeroDivisionError
| UnsupportedError (m : unsupported_msg)
| ColorError.   (* whatever convert_to_color raises on a bad colour *)

(** ** Data model *)

(** Modelled from the spec: a rectangle (x, y, width, height).  The class
    SDL_Rect of sdl2/rect.py is not part of the sources at hand; it is the
    ctypes image of SDL's C structure, whose four fields are C [int]s. *)
Record SDL_Rect : Type := mkRect { rx : Z; ry : Z; rw : Z; rh : Z }.

(** What a C [int] field keeps of a Python integer: ctypes stores it
    without overflow check, as the signed 32-bit number that has the same
    low 32 bits. *)
Definition c_int (z : Z) : Z := (z + 2 ^ 31) mod 2 ^ 32 - 2 ^ 31.

(** The constructor call [SDL_Rect(x, y, w, h)], which [line] makes under
    the name [SDLRect]. *)
Definition SDLRect (x y w h : Z) : SDL_Rect :=
  mkRect (c_int x) (c_int y) (c_int w) (c_int h).

Record SDL_PixelFormat : Type := mkFormat {
  BytesPerPixel : Z;
  Amask : Z;
  layout : Z   (* stands for the remaining channel masks and shifts *)
}.

Record SDL_Surface : Type := mkSurface {
  format : SDL_PixelFormat;
  pitch : Z;
  clip_rect : SDL_Rect
}.

Record Color : Type := mkColor { cr : Z; cg : Z; cb : Z; ca : Z }.

(** What a caller may pass as drawing target. *)
Inductive target : Type :=
| TSurface (s : SDL_Surface)        (* surface.SDL_Surface *)
| TSprite (s : SDL_Surface)         (* SoftwareSprite, with its .surface *)
| TPointer (s : SDL_Surface)        (* LP_SDL_Surface, with its .contents *)
| TPixelFormat (f : SDL_PixelFormat)
| TOther.

(** Python values, as far as [fill]'s [area] argument and the result of
    [clipline] need them. *)
#[warnings="-register-all"]
Inductive pyval : Type :=
| PyNone
| PyInt (n : Z)
| PyFloat (q : Q)
| PyRect (r : SDL_Rect)
| PySeq (l : list pyval).

(** ** State: pixel memory and the calls made on the surface *)

Inductive event : Type :=
| EvFillRect (dst : SDL_Surface) (r : option SDL_Rect) (color : Z)
| EvFillRects (dst : SDL_Surface) (rs : list SDL_Rect) (count : Z) (color : Z)
| EvPixel (idx : Z) (v : Z).

(** [pixels] is the surface's pixel memory seen through a pointer to
    elements of [BytesPerPixel] bytes: element index to element value. *)
Record state : Type := mkState {
  pixels : Z -> Z;
  trace : list event
}.

Inductive outcome (A : Type) : Type :=
| Ret (a : A)
| Raise (e : exn)
| Timeout.     (* fuel of a [while True] loop exhausted *)
Arguments Ret {A} a.
Arguments Raise {A} e.
Arguments Timeout {A}.

Definition M (A : Type) : Type := state -> outcome A * state.

Definition ret {A} (a : A) : M A := fun st => (Ret a, st).
Definition raise {A} (e : exn) : M A := fun st => (Raise e, st).
Definition timeout {A} : M A := fun st => (Timeout, st).
Definition bind {A B} (m : M A) (k : A -> M B) : M B :=
  fun st =>
    match m st with
    | (Ret a, st') => k a st'
    | (Raise e, st') => (Raise e, st')
    | (Timeout, st') => (Timeout, st')
    end.

Notation "x <- m ;; k" := (bind m (fun x => k))
  (at level 61, m at next level, right associativity).
Notation "m ;;; k" := (bind m (fun _ => k))
  (at level 61, right associativity).

(** ** Python primitives *)

(** [int(q)] for a float: truncation towards zero. *)
Definition Qtrunc (q : Q) : Z := Z.quot (Qnum q) (Z.pos (Qden q)).

(** [int(v)]. *)
Definition py_int (v : pyval) : M Z :=
  match v with
  | PyInt n => ret n
  | PyFloat q => ret (Qtrunc q)
  | _ => raise TypeError
  end.

Definition py_is_none (v : pyval) : bool :=
  match v with PyNone => true | _ => false end.

(** Truth value of an object in [if area:]. *)
Definition py_truthy (v : pyval) : bool :=
  match v with
  | PyNone => false
  | PyInt n => negb (n =? 0)
  | PyFloat q => negb (Qeq_bool q 0)
  | PyRect _ => true
  | PySeq l => match l with [] => false | _ => true end
  end.

(** [v[i]]: only sequences can be indexed; outside the sequence Python
    raises IndexError, otherwise TypeError.  Both are caught alike by
    [fill], so one [None] stands for either. *)
Definition py_index (v : pyval) (i : nat) : option pyval :=
  match v with
  | PySeq l => nth_error l i
  | _ => None
  end.

(** As [py_int], outside the monad: [None] when [int] raises. *)
Definition py_int_opt (v : pyval) : option Z :=
  match v with
  | PyInt n => Some n
  | PyFloat q => Some (Qtrunc q)
  | _ => None
  end.

(** ** Collaborators that live outside this module *)

(** Modelled from the spec: [isiterable] of sdl2/ext/compat.py is not part
    of the sources at hand.  An area is "a single rectangle-like value (4
    numeric fields or an explicit rectangle object) or a sequence of such":
    sequences are iterable, numbers, [None] and rectangle objects are not. *)
Definition isiterable (v : pyval) : bool :=
  match v with PySeq _ => true | _ => false end.

Definition Qltb (a b : Q) : bool := negb (Qle_bool b a).

(** Modelled from the spec: one boundary test of the parametric clipping
    of [clipline] below.  The segment point at parameter [t] is on the
    inner side of the boundary iff [p * t <= q]; the test narrows the
    parameter interval [t0,t1] accordingly, or finds it empty. *)
Definition clip_step (acc : option (Q * Q)) (pq : Q * Q) : option (Q * Q) :=
  match acc with
  | None => None
  | Some (t0, t1) =>
      let (p, q) := pq in
      if Qeq_bool p 0 then
        if Qltb q 0 then None else Some (t0, t1)
      else
        let dt := (q / p)%Q in
        if Qltb p 0 then
          if Qltb t1 dt then None else Some (Qmax t0 dt, t1)
        else
          if Qltb dt t0 then None else Some (t0, Qmin t1 dt)
  end.

(** Modelled from the spec: [clipline] of sdl2/ext/algorithms.py is not part
    of the sources at hand.  It clips (x1,y1)-(x2,y2) against the rectangle
    with inclusive bounds left, top, right, bottom by "a parametric
    line-clipping algorithm (Liang-Barsky or equivalent)", computes "the
    portion of the segment, if any, inside the rectangle" and returns "a
    sentinel (no output)" when the segment lies entirely outside.  [line]
    unpacks four values and compares the first with [None], so the sentinel
    is four [None]s.  Arithmetic is exact. *)
Definition clipline (left top right bottom x1 y1 x2 y2 : Z)
  : pyval * pyval * pyval * pyval :=
  let dx := inject_Z (x2 - x1) in
  let dy := inject_Z (y2 - y1) in
  let checks :=
    [ ((- dx)%Q, inject_Z (x1 - left));
      (dx, inject_Z (right - x1));
      ((- dy)%Q, inject_Z (y1 - top));
      (dy, inject_Z (bottom - y1)) ] in
  match fold_left clip_step checks (Some (0%Q, 1%Q)) with
  | None => (PyNone, PyNone, PyNone, PyNone)
  | Some (t0, t1) =>
      let '(nx1, ny1) :=
        if Qltb 0 t0
        then (PyFloat (inject_Z x1 + t0 * dx), PyFloat (inject_Z y1 + t0 * dy))
        else (PyInt x1, PyInt y1) in
      let '(nx2, ny2) :=
        if Qltb t1 1
        then (PyFloat (inject_Z x1 + t1 * dx), PyFloat (inject_Z y1 + t1 * dy))
        else (PyInt x2, PyInt y2) in
      (nx1, ny1, nx2, ny2)
  end.

Definition in_rect (r : SDL_Rect) (x y : Z) : bool :=
  (rx r <=? x) && (x <? rx r + rw r) && (ry r <=? y) && (y <? ry r + rh r).

(** Elements per scanline. *)
Definition stride (s : SDL_Surface) : Z := pitch s / BytesPerPixel (format s).

(** Modelled from the spec: the effect of SDL's rectangle fill (bound in
    sdl2/surface.py, not part of the sources at hand) on the pixel memory.
    "All fills write the resolved packed color into every pixel of the
    (clip-intersected) target rectangle"; no rectangle means "fill entire
    surface clip region".  Element [i] is the pixel in column
    [i mod stride], row [i / stride]. *)
Definition fill_pixels (dst : SDL_Surface) (r : option SDL_Rect) (color : Z)
    (px : Z -> Z) : Z -> Z :=
  fun i =>
    let x := i mod stride dst in
    let y := i / stride dst in
    if (0 <? stride dst)
       && in_rect (clip_rect dst) x y
       && match r with None => true | Some r => in_rect r x y end
    then color mod 2 ^ (8 * BytesPerPixel (format dst))
    else px i.

(** Modelled from the spec: the call SDL_FillRect(dst, rect, color), with
    [None] for no rectangle.  It is recorded and has the effect of
    [fill_pixels]; its return code is not looked at by this module. *)
Definition SDL_FillRect (dst : SDL_Surface) (r : option SDL_Rect) (color : Z)
  : M unit :=
  fun st =>
    (Ret tt,
     mkState (fill_pixels dst r color (pixels st))
             (trace st ++ [EvFillRect dst r color])).

(** Modelled from the spec: the batched call
    SDL_FillRects(dst, rects, count, color), "one batched fill call over
    the whole set"; the [count] rectangles are filled one after the
    other. *)
Definition SDL_FillRects (dst : SDL_Surface) (rs : list SDL_Rect) (count : Z)
    (color : Z) : M unit :=
  fun st =>
    (Ret tt,
     mkState (fold_left (fun px r => fill_pixels dst (Some r) color px)
                        (firstn (Z.to_nat count) rs) (pixels st))
             (trace st ++ [EvFillRects dst rs count color])).

(** ** The module: sdl2/ext/draw.py *)

Module Draw.

Section Functions.

(** The colour utilities come from sdl2/ext/color.py and from SDL itself;
    nothing stated below depends on what they compute. *)
Variable color_arg : Type.
Variable convert_to_color : color_arg -> option Color.
Variable SDL_MapRGB : SDL_PixelFormat -> Z -> Z -> Z -> Z.
Variable SDL_MapRGBA : SDL_PixelFormat -> Z -> Z -> Z -> Z -> Z.

(** draw.py, lines 13-23. *)
Definition _get_target_surface (t : target) : M SDL_Surface :=
  match t with
  | TSurface s => ret s
  | TSprite s => ret s
  | TPointer s => ret s
  | _ => raise TypeError
  end.

(** Lines 29-36: the pixel format found on the target, if any. *)
Definition target_pformat (t : target) : option SDL_PixelFormat :=
  match t with
  | TPixelFormat f => Some f
  | TSurface s => Some (format s)
  | TSprite s => Some (format s)
  | _ => None
  end.

(** draw.py, lines 26-42. *)
Definition prepare_color (color : color_arg) (t : target) : M Z :=
  color <- (match convert_to_color color with
            | Some c => ret c
            | None => raise ColorError
            end) ;;
  match target_pformat t with
  | None => raise TypeError
  | Some pformat =>
      if negb (Amask pformat =? 0)
      then ret (SDL_MapRGBA pformat (cr color) (cg color) (cb color) (ca color))
      else ret (SDL_MapRGB pformat (cr color) (cg color) (cb color))
  end.

(** Lines 78-87: one area becomes one rectangle, or ValueError. *)
Definition coerce_rect (r : pyval) : M SDL_Rect :=
  match r with
  | PyRect rc => ret rc
  | _ =>
      let field i :=
        match py_index r i with
        | Some v => py_int_opt v
        | None => None
        end in
      match field 0%nat, field 1%nat, field 2%nat, field 3%nat with
      | Some a, Some b, Some c, Some d => ret (SDLRect a b c d)
      | _, _, _, _ => raise (ValueError MsgArea)
      end
  end.

(** Lines 77-87: the loop [for r in area], appending to [rects]. *)
Fixpoint collect_rects (area : list pyval) (rects : list SDL_Rect)
  : M (list SDL_Rect) :=
  match area with
  | [] => ret rects
  | r :: rest =>
      new_rect <- coerce_rect r ;;
      collect_rects rest (rects ++ [new_rect])
  end.

(** Lines 75-76: a lone area is wrapped into a one-element list.  The
    test [area[0]] is only reached for a sequence, which is not empty
    because [area] was found true. *)
Definition area_items (area : pyval) : list pyval :=
  match area with
  | PySeq (first :: rest) =>
      if negb (isiterable area) || negb (isiterable first)
      then [area]
      else first :: rest
  | _ => [area]
  end.

(** Lines 73-87: the list [rects] built from [area]. *)
Definition normalize_area (area : pyval) : M (list SDL_Rect) :=
  if py_truthy area
  then collect_rects (area_items area) []
  else ret [].

(** draw.py, lines 45-96. *)
Definition fill (t : target) (color : color_arg) (area : pyval) : M unit :=
  color <- prepare_color color t ;;
  rtarget <- _get_target_surface t ;;
  rects <- normalize_area area ;;
  if (2 <? Z.of_nat (length rects)) then
    SDL_FillRects rtarget rects (Z.of_nat (length rects)) color
  else if (Z.of_nat (length rects) =? 1) then
    SDL_FillRect rtarget (nth_error rects 0) color
  else
    SDL_FillRect rtarget None color.

(** Lines 127-132: what [pxbuf] is.  With 2 or 4 bytes per pixel it is
    [rtarget.pixels] cast to a pointer to 16-bit or to 32-bit elements.
    Otherwise it is [rtarget.pixels] itself, the plain address of the
    buffer, which is not a pointer object and cannot be indexed. *)
Inductive pxbuf_type : Type :=
| Uint16Pointer
| Uint32Pointer
| RawAddress.

Definition pxbuf_of (bpp : Z) : pxbuf_type :=
  if bpp =? 2 then Uint16Pointer
  else if bpp =? 4 then Uint32Pointer
  else RawAddress.

(** Storing through a pointer to elements of [bits] bits: the element
    keeps the low [bits] bits of the value. *)
Definition store_element (bits idx color : Z) : M unit :=
  fun st =>
    let v := color mod 2 ^ bits in
    (Ret tt,
     mkState (fun i => if i =? idx then v else pixels st i)
             (trace st ++ [EvPixel idx v])).

(** Line 170: [pxbuf[idx] = color].  Item assignment on the plain address
    raises TypeError and stores nothing. *)
Definition pxbuf_store (bpp idx color : Z) : M unit :=
  match pxbuf_of bpp with
  | Uint16Pointer => store_element 16 idx color
  | Uint32Pointer => store_element 32 idx color
  | RawAddress => raise TypeError
  end.

(** [int(y1 * frac + x1)].  With 1, 2 or 4 bytes per pixel the quotient
    [pitch / bpp] and this sum are exact in double precision as long as
    they stay below 2^53, so that the exact value is the computed one. *)
Definition pixel_index (frac : Q) (x1 y1 : Z) : Z :=
  Qtrunc (inject_Z y1 * frac + inject_Z x1).

(** Lines 169-179: the [while True] loop, one unit of fuel per round. *)
Fixpoint bresenham_loop (fuel : nat) (bpp : Z) (frac : Q) (color : Z)
    (x2 y2 dx dy sx sy : Z) (x1 y1 err : Z) : M unit :=
  match fuel with
  | O => timeout
  | S fuel' =>
      pxbuf_store bpp (pixel_index frac x1 y1) color ;;;
      if (x1 =? x2) && (y1 =? y2) then ret tt
      else
        let e2 := err * 2 in
        let '(err, x1) :=
          if e2 >? dy then (err + dy, x1 + sx) else (err, x1) in
        let '(err, y1) :=
          if e2 <? dx then (err + dx, y1 + sy) else (err, y1) in
        bresenham_loop fuel' bpp frac color x2 y2 dx dy sx sy x1 y1 err
  end.

(** Rounds that the loop is given: one per pixel of a staircase from
    (x1,y1) to (x2,y2).  [bresenham_enough_fuel] below shows that the loop
    has always ended by then. *)
Definition bresenham_fuel (x1 y1 x2 y2 : Z) : nat :=
  S (Z.to_nat (Z.abs (x2 - x1) + Z.abs (y2 - y1))).

(** Lines 161-179. *)
Definition bresenham (bpp : Z) (frac : Q) (color : Z) (x1 y1 x2 y2 : Z)
  : M unit :=
  let dx := Z.abs (x2 - x1) in
  let dy := - Z.abs (y2 - y1) in
  let err := dx + dy in
  let sx := if x1 >? x2 then -1 else 1 in
  let sy := if y1 >? y2 then -1 else 1 in
  bresenham_loop (bresenham_fuel x1 y1 x2 y2) bpp frac color
                 x2 y2 dx dy sx sy x1 y1 err.

(** Lines 135-179: the body of the [for] loop for one segment. *)
Definition draw_segment (rtarget : SDL_Surface) (color width : Z) (frac : Q)
    (left top right bottom : Z) (seg : Z * Z * Z * Z) : M unit :=
  let '(x1, y1, x2, y2) := seg in
  if x1 =? x2 then
    let varea :=
      if y1 <? y2
      then SDLRect (x1 - width / 2) y1 width (y2 - y1)
      else SDLRect (x1 - width / 2) y2 width (y1 - y2) in
    SDL_FillRect rtarget (Some varea) color
  else if y1 =? y2 then
    let varea :=
      if x1 <? x2
      then SDLRect x1 (y1 - width / 2) (x2 - x1) width
      else SDLRect x2 (y1 - width / 2) (x1 - x2) width in
    SDL_FillRect rtarget (Some varea) color
  else if negb (width =? 1) then
    raise (UnsupportedError MsgWidth)
  else if width =? 1 then
    let '(cx1, cy1, cx2, cy2) :=
      clipline left top right bottom x1 y1 x2 y2 in
    x1 <- py_int cx1 ;;
    y1 <- py_int cy1 ;;
    x2 <- py_int cx2 ;;
    y2 <- py_int cy2 ;;
    (* line 158: x1 is an int by now *)
    if py_is_none (PyInt x1) then ret tt
    else bresenham (BytesPerPixel (format rtarget)) frac color x1 y1 x2 y2
  else ret tt.

(** [dline[idx:idx + 4]] for idx = 0, 4, 8, ... *)
Fixpoint segments (dline : list Z) : list (Z * Z * Z * Z) :=
  match dline with
  | x1 :: y1 :: x2 :: y2 :: rest => (x1, y1, x2, y2) :: segments rest
  | _ => []
  end.

(** Line 134: the [for] loop. *)
Fixpoint draw_segments (rtarget : SDL_Surface) (color width : Z) (frac : Q)
    (left top right bottom : Z) (segs : list (Z * Z * Z * Z)) : M unit :=
  match segs with
  | [] => ret tt
  | seg :: rest =>
      draw_segment rtarget color width frac left top right bottom seg ;;;
      draw_segments rtarget color width frac left top right bottom rest
  end.

(** draw.py, lines 99-179. *)
Definition line (t : target) (color : color_arg) (dline : list Z) (width : Z)
  : M unit :=
  if width <? 1 then raise (ValueError MsgWidthLow)
  else
    color <- prepare_color color t ;;
    rtarget <- _get_target_surface t ;;
    if negb (Z.of_nat (length dline) mod 4 =? 0)
    then raise (ValueError MsgPoints)
    else
      let bpp := BytesPerPixel (format rtarget) in
      if bpp =? 0 then raise ZeroDivisionError
      else
        let frac := (inject_Z (pitch rtarget) / inject_Z bpp)%Q in
        let clip := clip_rect rtarget in
        let left := rx clip in
        let right := rx clip + rw clip - 1 in
        let top := ry clip in
        let bottom := ry clip + rh clip - 1 in
        if bpp =? 3 then raise (UnsupportedError Msg24bpp)
        else
          draw_segments rtarget color width frac left top right bottom
                        (segments dline).

End Functions.

End Draw.

Import Draw.

(** ** Vocabulary of the properties *)

(** State after storing the colour at one point, and at a list of points
    in turn, as the Bresenham loop does. *)
Definition plot (bpp : Z) (frac : Q) (color : Z) (st : state) (p : Z * Z)
  : state :=
  snd (pxbuf_store bpp (pixel_index frac (fst p) (snd p)) color st).

Definition plot_all (bpp : Z) (frac : Q) (color : Z) (pts : list (Z * Z))
    (st : state) : state :=
  fold_left (plot bpp frac color) pts st.

(** The points the loop of [bresenham_loop] visits, in order; [None] when
    the fuel runs out first. *)
Fixpoint bresenham_points (fuel : nat) (x2 y2 dx dy sx sy : Z)
    (x1 y1 err : Z) : option (list (Z * Z)) :=
  match fuel with
  | O => None
  | S fuel' =>
      if (x1 =? x2) && (y1 =? y2) then Some [(x1, y1)]
      else
        let e2 := err * 2 in
        let '(err', x1') :=
          if e2 >? dy then (err + dy, x1 + sx) else (err, x1) in
        let '(err'', y1') :=
          if e2 <? dx then (err' + dx, y1 + sy) else (err', y1) in
        option_map (cons (x1, y1))
          (bresenham_points fuel' x2 y2 dx dy sx sy x1' y1' err'')
  end.

(** Steps still to go in one direction, from [cur] to [goal] by [step]. *)
Definition togo (step goal cur : Z) : Z := step * (goal - cur).

(** The invariant of the Bresenham loop: the current point lies between
    the start and the end point, and [err] is determined by the steps still
    to go. *)
Definition bres_inv (x2 y2 dx dy sx sy : Z) (x y err : Z) : Prop :=
  0 <= togo sx x2 x <= dx
  /\ 0 <= togo sy y2 y <= - dy
  /\ err = dx + dy - dx * togo sy y2 y - dy * togo sx x2 x.

(** The pixel in column [x] of row [y]. *)
Definition pixel (s : SDL_Surface) (st : state) (x y : Z) : Z :=
  pixels st (y * stride s + x).

(** A surface as SDL hands it out: whole elements per scanline, and a clip
    rectangle that does not leave the scanline. *)
Definition surface_ok (s : SDL_Surface) : Prop :=
  0 < BytesPerPixel (format s)
  /\ pitch s mod BytesPerPixel (format s) = 0
  /\ 0 <= rx (clip_rect s)
  /\ rx (clip_rect s) + rw (clip_rect s) <= stride s.

(** Every pixel outside the clip rectangle has kept its value. *)
Definition clip_frame (s : SDL_Surface) (st st' : state) : Prop :=
  forall x y, 0 <= x < stride s ->
    in_rect (clip_rect s) x y = false ->
    pixel s st' x y = pixel s st x y.

(** The constants that [line] reads off the surface (lines 118-123). *)
Definition scan_frac (s : SDL_Surface) : Q :=
  (inject_Z (pitch s) / inject_Z (BytesPerPixel (format s)))%Q.

Definition clip_right (s : SDL_Surface) : Z :=
  rx (clip_rect s) + rw (clip_rect s) - 1.

Definition clip_bottom (s : SDL_Surface) : Z :=
  ry (clip_rect s) + rh (clip_rect s) - 1.

(** The [for] loop of [line] on surface [s]. *)
Definition draw_on (s : SDL_Surface) (color width : Z)
    (segs : list (Z * Z * Z * Z)) : M unit :=
  draw_segments s color width (scan_frac s)
    (rx (clip_rect s)) (ry (clip_rect s)) (clip_right s) (clip_bottom s) segs.

(** A computation that, whatever its outcome, keeps the pixels outside the
    clip rectangle of [s]. *)
Definition frames (s : SDL_Surface) {A : Type} (m : M A) : Prop :=
  forall st, clip_frame s st (snd (m st)).

(** No point of the segment (x1,y1)-(x2,y2) lies in the rectangle with the
    inclusive bounds left, top, right, bottom. *)
Definition segment_outside (left top right bottom x1 y1 x2 y2 : Z) : Prop :=
  forall u : Q, (0 <= u)%Q -> (u <= 1)%Q ->
    ~ ((inject_Z left <= inject_Z x1 + u * inject_Z (x2 - x1))%Q
       /\ (inject_Z x1 + u * inject_Z (x2 - x1) <= inject_Z right)%Q
       /\ (inject_Z top <= inject_Z y1 + u * inject_Z (y2 - y1))%Q
       /\ (inject_Z y1 + u * inject_Z (y2 - y1) <= inject_Z bottom)%Q).

Definition axis_aligned (seg : Z * Z * Z * Z) : bool :=
  let '(x1, y1, x2, y2) := seg in (x1 =? x2) || (y1 =? y2).

(** The point list that holds the given segments. *)
Definition flat (segs : list (Z * Z * Z * Z)) : list Z :=
  flat_map (fun seg => let '(x1, y1, x2, y2) := seg in [x1; y1; x2; y2]) segs.

(** The rectangles a thick axis-aligned line is said to be, in the words of
    the specification: for a vertical segment
    (x1 - w // 2, min(y1,y2), w, |y2 - y1|), for a horizontal one
    (min(x1,x2), y1 - w // 2, |x2 - x1|, w); each as the SDL_Rect object
    made from these four numbers. *)
Definition spec_vertical_rect (x1 y1 y2 w : Z) : SDL_Rect :=
  SDLRect (x1 - w / 2) (Z.min y1 y2) w (Z.abs (y2 - y1)).

Definition spec_horizontal_rect (x1 y1 x2 w : Z) : SDL_Rect :=
  SDLRect (Z.min x1 x2) (y1 - w / 2) (Z.abs (x2 - x1)) w.

(** The SDL_Rect object made from the four numbers of [r]: equal to [r]
    when these are C ints. *)
Definition c_rect (r : SDL_Rect) : SDL_Rect :=
  SDLRect (rx r) (ry r) (rw r) (rh r).

(** The four fields are C ints. *)
Definition rect_in_c_int (r : SDL_Rect) : Prop :=
  - 2 ^ 31 <= rx r < 2 ^ 31 /\ - 2 ^ 31 <= ry r < 2 ^ 31
  /\ - 2 ^ 31 <= rw r < 2 ^ 31 /\ - 2 ^ 31 <= rh r < 2 ^ 31.

(** A rectangle written as the tuple (x, y, w, h). *)
Definition rect_tuple (r : SDL_Rect) : pyval :=
  PySeq [PyInt (rx r); PyInt (ry r); PyInt (rw r); PyInt (rh r)].

(** A parameter interval [t0,t1] within which the boundary (p,q) is
    respected. *)
Definition keeps (pq : Q * Q) (t : Q * Q) : Prop :=
  (fst pq * fst t <= snd pq)%Q /\ (fst pq * snd t <= snd pq)%Q.

(** A parameter interval inside [0,1]. *)
Definition ordered (t : Q * Q) : Prop :=
  (0 <= fst t)%Q /\ (fst t <= snd t)%Q /\ (snd t <= 1)%Q.

(** The interval [t'] lies in the interval [t]. *)
Definition within (t' t : Q * Q) : Prop :=
  (fst t <= fst t')%Q /\ (snd t' <= snd t)%Q.

(** ** Vocabulary of the further properties *)

(** The rectangle that lines 138-149 build for an axis-aligned segment. *)
Definition axis_rect (width : Z) (seg : Z * Z * Z * Z) : SDL_Rect :=
  let '(x1, y1, x2, y2) := seg in
  if x1 =? x2 then
    if y1 <? y2
    then SDLRect (x1 - width / 2) y1 width (y2 - y1)
    else SDLRect (x1 - width / 2) y2 width (y1 - y2)
  else
    if x1 <? x2
    then SDLRect x1 (y1 - width / 2) (x2 - x1) width
    else SDLRect x2 (y1 - width / 2) (x1 - x2) width.

(** [q] is one of the eight neighbours of [p]. *)
Definition king_step (p q : Z * Z) : Prop :=
  Z.max (Z.abs (fst q - fst p)) (Z.abs (snd q - snd p)) = 1.

(** Each point of the list is a neighbour of the one before it. *)
Fixpoint chained (pts : list (Z * Z)) : Prop :=
  match pts with
  | [] => True
  | p :: rest =>
      match rest with
      | [] => True
      | q :: _ => king_step p q
      end /\ chained rest
  end.

Definition is_pixel_event (ev : event) : bool :=
  match ev with EvPixel _ _ => true | _ => false end.

(** ** A concrete setting to run the module in *)

(** A 10x10 surface with 32-bit pixels, no padding, clipped to itself. *)
Definition surface10 : SDL_Surface :=
  mkSurface (mkFormat 4 0xFF000000 0) 40 (SDLRect 0 0 10 10).

(** The same with 24-bit pixels. *)
Definition surface10_24 : SDL_Surface :=
  mkSurface (mkFormat 3 0 0) 30 (SDLRect 0 0 10 10).


(** ARGB8888 packing of a colour. *)
Definition pack_rgb (f : SDL_PixelFormat) (r g b : Z) : Z :=
  Z.lor (Z.lor (Z.shiftl r 16) (Z.shiftl g 8)) b.

Definition pack_rgba (f : SDL_PixelFormat) (r g b a : Z) : Z :=
  Z.lor (Z.shiftl a 24) (pack_rgb f r g b).

Definition white : Color := mkColor 255 255 255 255.

(** All pixels zero, nothing called yet. *)
Definition blank : state := mkState (fun _ => 0) [].

(** ** Properties *)

(** *** Truncation and clipping *)

(** Truncation does not leave an interval with integer bounds. *)
Lemma Qtrunc_bounds (a b : Z) (q : Q) :
  (inject_Z a <= q)%Q -> (q <= inject_Z b)%Q -> a <= Qtrunc q <= b.
Proof.
  destruct q as [n d]. unfold Qle, Qtrunc, inject_Z. simpl.
  intros Ha Hb.
  pose proof (Z.quot_rem' n (Z.pos d)) as E.
  assert (Hd : 0 < Z.pos d) by lia.
  destruct (Z_le_gt_dec 0 n) as [Hn | Hn].
  - pose proof (Z.rem_bound_pos n (Z.pos d) Hn Hd). nia.
  - assert (Hn' : n <= 0) by lia.
    pose proof (Z.rem_bound_pos_neg n (Z.pos d) Hd Hn'). nia.
Qed.

Lemma Qtrunc_inject (k : Z) (q : Q) : (q == inject_Z k)%Q -> Qtrunc q = k.
Proof.
  intros E. assert (k <= Qtrunc q <= k); [| lia].
  apply Qtrunc_bounds; rewrite E; apply Qle_refl.
Qed.

Lemma Qltb_true (a b : Q) : Qltb a b = true -> (a < b)%Q.
Proof.
  unfold Qltb. intros H. apply negb_true_iff in H.
  apply Qnot_le_lt. intros C. apply Qle_bool_iff in C. congruence.
Qed.

Lemma Qltb_false (a b : Q) : Qltb a b = false -> (b <= a)%Q.
Proof.
  unfold Qltb. intros H. apply negb_false_iff in H.
  now apply Qle_bool_iff.
Qed.

Lemma keeps_within pq t t' :
  ordered t' -> within t' t -> keeps pq t -> keeps pq t'.
Proof.
  destruct pq as [p q], t as [t0 t1], t' as [u0 u1].
  unfold ordered, within, keeps; simpl.
  intros (H0 & H01 & H1) (Ha & Hb) (K0 & K1).
  destruct (Qlt_le_dec p 0); split; nra.
Qed.

Lemma clip_step_sound pq t t' :
  ordered t -> clip_step (Some t) pq = Some t' ->
  ordered t' /\ within t' t /\ keeps pq t'.
Proof.
  destruct pq as [p q], t as [t0 t1].
  unfold ordered, within, keeps, clip_step; simpl.
  intros (H0 & H01 & H1).
  destruct (Qeq_bool p 0) eqn:Ep.
  - apply Qeq_bool_eq in Ep.
    destruct (Qltb q 0) eqn:Eq; [discriminate|].
    apply Qltb_false in Eq. intros [= <-]; simpl.
    repeat split; try lra; rewrite Ep; lra.
  - apply Qeq_bool_neq in Ep.
    pose proof (Qmult_div_r q p Ep) as D.
    set (dt := (q / p)%Q) in *.
    destruct (Qltb p 0) eqn:Es.
    + apply Qltb_true in Es.
      destruct (Qltb t1 dt) eqn:E1; [discriminate|].
      apply Qltb_false in E1. intros [= <-]; simpl.
      destruct (Q.max_spec t0 dt) as [[L ->] | [L ->]];
        repeat split; try lra; nra.
    + apply Qltb_false in Es.
      assert (0 < p)%Q
        by (destruct (Qlt_le_dec 0 p); [assumption | exfalso; apply Ep; lra]).
      destruct (Qltb dt t0) eqn:E0; [discriminate|].
      apply Qltb_false in E0. intros [= <-]; simpl.
      destruct (Q.min_spec t1 dt) as [[L ->] | [L ->]];
        repeat split; try lra; nra.
Qed.
Lemma py_int_of_opt v z : py_int_opt v = Some z -> py_int v = ret z.
Proof. destruct v; simpl; congruence. Qed.

Lemma clip_fold_sound c1 c2 c3 c4 t :
  fold_left clip_step [c1; c2; c3; c4] (Some (0%Q, 1%Q)) = Some t ->
  ordered t /\ keeps c1 t /\ keeps c2 t /\ keeps c3 t /\ keeps c4 t.
Proof.
  cbn [fold_left].
  assert (O0 : ordered (0%Q, 1%Q)) by (unfold ordered; simpl; lra).
  destruct (clip_step (Some (0%Q, 1%Q)) c1) as [ta|] eqn:E1;
    [|simpl; discriminate].
  destruct (clip_step_sound _ _ _ O0 E1) as (Oa & _ & Ka).
  destruct (clip_step (Some ta) c2) as [tb|] eqn:E2; [|simpl; discriminate].
  destruct (clip_step_sound _ _ _ Oa E2) as (Ob & Wb & Kb).
  destruct (clip_step (Some tb) c3) as [tc|] eqn:E3; [|simpl; discriminate].
  destruct (clip_step_sound _ _ _ Ob E3) as (Oc & Wc & Kc).
  intros E4.
  destruct (clip_step_sound _ _ _ Oc E4) as (Od & Wd & Kd).
  repeat split; try apply Od; try apply Kd.
  - eapply keeps_within; [exact Od | exact Wd |].
    eapply keeps_within; [exact Oc | exact Wc |].
    eapply keeps_within; [exact Ob | exact Wb | exact Ka].
  - eapply keeps_within; [exact Od | exact Wd |].
    eapply keeps_within; [exact Oc | exact Wc |].
    eapply keeps_within; [exact Ob | exact Wb | exact Ka].
  - eapply keeps_within; [exact Od | exact Wd |].
    eapply keeps_within; [exact Oc | exact Wc | exact Kb].
  - eapply keeps_within; [exact Od | exact Wd |].
    eapply keeps_within; [exact Oc | exact Wc | exact Kb].
  - eapply keeps_within; [exact Od | exact Wd | exact Kc].
  - eapply keeps_within; [exact Od | exact Wd | exact Kc].
Qed.

(** The clipping routine answers either with the sentinel or with two
    points whose integer parts lie in the clipping rectangle. *)
Lemma clipline_inside (left top right bottom x1 y1 x2 y2 : Z) :
  clipline left top right bottom x1 y1 x2 y2 = (PyNone, PyNone, PyNone, PyNone)
  \/ exists v1 w1 v2 w2 ix1 iy1 ix2 iy2,
       clipline left top right bottom x1 y1 x2 y2 = (v1, w1, v2, w2)
       /\ py_int_opt v1 = Some ix1 /\ py_int_opt w1 = Some iy1
       /\ py_int_opt v2 = Some ix2 /\ py_int_opt w2 = Some iy2
       /\ left <= ix1 <= right /\ top <= iy1 <= bottom
       /\ left <= ix2 <= right /\ top <= iy2 <= bottom.
Proof.
  unfold clipline.
  set (dx := inject_Z (x2 - x1)). set (dy := inject_Z (y2 - y1)).
  match goal with |- context [fold_left clip_step ?cs ?i] =>
    destruct (fold_left clip_step cs i) as [[t0 t1]|] eqn:F end;
    [right | left; reflexivity].
  apply clip_fold_sound in F.
  destruct F as ((O0 & O01 & O1) & (A0 & A1) & (B0 & B1) & (C0 & C1)
                 & (D0 & D1)).
  simpl in *.
  assert (Ex : (inject_Z x2 == inject_Z x1 + dx)%Q)
    by (unfold dx; rewrite <- inject_Z_plus; f_equiv; lia).
  assert (Ey : (inject_Z y2 == inject_Z y1 + dy)%Q)
    by (unfold dy; rewrite <- inject_Z_plus; f_equiv; lia).
  unfold Z.sub in A0, A1, B0, B1, C0, C1, D0, D1.
  rewrite !inject_Z_plus, !inject_Z_opp in A0, A1, B0, B1, C0, C1, D0, D1.
  assert (P1 : exists v1 w1 ix1 iy1,
     (if Qltb 0 t0
      then (PyFloat (inject_Z x1 + t0 * dx), PyFloat (inject_Z y1 + t0 * dy))
      else (PyInt x1, PyInt y1)) = (v1, w1)
     /\ py_int_opt v1 = Some ix1 /\ py_int_opt w1 = Some iy1
     /\ left <= ix1 <= right /\ top <= iy1 <= bottom).
  { destruct (Qltb 0 t0) eqn:E.
    - do 4 eexists. split; [reflexivity|]. simpl.
      split; [reflexivity|]. split; [reflexivity|].
      split; apply Qtrunc_bounds; lra.
    - apply Qltb_false in E. assert (T : (t0 == 0)%Q) by lra.
      rewrite T in A0, B0, C0, D0.
      do 4 eexists. split; [reflexivity|]. simpl.
      split; [reflexivity|]. split; [reflexivity|].
      rewrite !Zle_Qle. repeat split; lra. }
  assert (P2 : exists v2 w2 ix2 iy2,
     (if Qltb t1 1
      then (PyFloat (inject_Z x1 + t1 * dx), PyFloat (inject_Z y1 + t1 * dy))
      else (PyInt x2, PyInt y2)) = (v2, w2)
     /\ py_int_opt v2 = Some ix2 /\ py_int_opt w2 = Some iy2
     /\ left <= ix2 <= right /\ top <= iy2 <= bottom).
  { destruct (Qltb t1 1) eqn:E.
    - do 4 eexists. split; [reflexivity|]. simpl.
      split; [reflexivity|]. split; [reflexivity|].
      split; apply Qtrunc_bounds; lra.
    - apply Qltb_false in E. assert (T : (t1 == 1)%Q) by lra.
      rewrite T in A1, B1, C1, D1.
      do 4 eexists. split; [reflexivity|]. simpl.
      split; [reflexivity|]. split; [reflexivity|].
      rewrite !Zle_Qle. repeat split; lra. }
  destruct P1 as (v1 & w1 & ix1 & iy1 & -> & I1 & J1 & R1 & S1).
  destruct P2 as (v2 & w2 & ix2 & iy2 & -> & I2 & J2 & R2 & S2).
  exists v1, w1, v2, w2, ix1, iy1, ix2, iy2. repeat split; try assumption; lia.
Qed.

(** A segment without a point in the rectangle is answered with the
    sentinel. *)
Lemma clipline_outside (left top right bottom x1 y1 x2 y2 : Z) :
  segment_outside left top right bottom x1 y1 x2 y2 ->
  clipline left top right bottom x1 y1 x2 y2
    = (PyNone, PyNone, PyNone, PyNone).
Proof.
  intros Out. unfold clipline. unfold segment_outside in Out.
  set (dx := inject_Z (x2 - x1)) in *. set (dy := inject_Z (y2 - y1)) in *.
  match goal with |- context [fold_left clip_step ?cs ?i] =>
    destruct (fold_left clip_step cs i) as [[t0 t1]|] eqn:F end;
    [exfalso | reflexivity].
  apply clip_fold_sound in F.
  destruct F as ((O0 & O01 & O1) & (A0 & _) & (B0 & _) & (C0 & _) & (D0 & _)).
  simpl in *.
  unfold Z.sub in A0, B0, C0, D0.
  rewrite !inject_Z_plus, !inject_Z_opp in A0, B0, C0, D0.
  apply (Out t0); [lra | lra |].
  repeat split; lra.
Qed.

(** *** C ints *)

Lemma c_int_small (z : Z) : - 2 ^ 31 <= z < 2 ^ 31 -> c_int z = z.
Proof.
  unfold c_int. change (2 ^ 32) with 4294967296.
  change (2 ^ 31) with 2147483648. intros H.
  rewrite Z.mod_small by lia. lia.
Qed.

Lemma c_int_range (z : Z) : - 2 ^ 31 <= c_int z < 2 ^ 31.
Proof.
  unfold c_int. change (2 ^ 32) with 4294967296.
  change (2 ^ 31) with 2147483648.
  pose proof (Z.mod_pos_bound (z + 2147483648) 4294967296 ltac:(lia)). lia.
Qed.

Lemma c_int_idem (z : Z) : c_int (c_int z) = c_int z.
Proof. apply c_int_small, c_int_range. Qed.

(** *** The pixel buffer *)

Lemma pxbuf_store_pointer (bpp idx color : Z) (st : state) :
  bpp = 2 \/ bpp = 4 ->
  pxbuf_store bpp idx color st = store_element (8 * bpp) idx color st.
Proof. intros [-> | ->]; reflexivity. Qed.

Lemma pxbuf_store_raw (bpp idx color : Z) (st : state) :
  bpp <> 2 -> bpp <> 4 ->
  pxbuf_store bpp idx color st = (Raise TypeError, st).
Proof.
  intros H2 H4. unfold pxbuf_store, pxbuf_of.
  destruct (Z.eqb_spec bpp 2); [contradiction|].
  destruct (Z.eqb_spec bpp 4); [contradiction|]. reflexivity.
Qed.

Lemma plot_pointer (bpp : Z) (frac : Q) (color : Z) (st : state)
    (x y : Z) :
  bpp = 2 \/ bpp = 4 ->
  pxbuf_store bpp (pixel_index frac x y) color st
  = (Ret tt, plot bpp frac color st (x, y)).
Proof.
  intros H. unfold plot. cbn [fst snd].
  rewrite !pxbuf_store_pointer by exact H. reflexivity.
Qed.

(** *** The Bresenham loop *)

Section Bresenham.

Variables (bpp : Z) (frac : Q) (color : Z).
Variables (x2 y2 dx dy sx sy : Z).
Hypothesis dx_nonneg : 0 <= dx.
Hypothesis dy_nonpos : dy <= 0.
Hypothesis sx_unit : sx = 1 \/ sx = -1.
Hypothesis sy_unit : sy = 1 \/ sy = -1.
Hypothesis bpp_pointer : bpp = 2 \/ bpp = 4.

Lemma bresenham_loop_run (fuel : nat) :
  forall x y err st,
    bres_inv x2 y2 dx dy sx sy x y err ->
    (Z.to_nat (togo sx x2 x + togo sy y2 y) < fuel)%nat ->
    exists pts,
      bresenham_loop fuel bpp frac color x2 y2 dx dy sx sy x y err st
        = (Ret tt, plot_all bpp frac color ((x, y) :: pts) st)
      /\ last ((x, y) :: pts) (0, 0) = (x2, y2)
      /\ Forall (fun p => 0 <= togo sx x2 (fst p) <= togo sx x2 x
                          /\ 0 <= togo sy y2 (snd p) <= togo sy y2 y)
                ((x, y) :: pts).
Proof.
  induction fuel as [|fuel IH]; intros x y err st (Hx & Hy & He) Hf; [lia|].
  cbn [bresenham_loop]. unfold bind at 1.
  rewrite (plot_pointer bpp frac color st x y bpp_pointer).
  cbv iota beta.
  destruct ((x =? x2) && (y =? y2)) eqn:Eend.
  - apply andb_true_iff in Eend as [Ex Ey].
    apply Z.eqb_eq in Ex, Ey. subst x y.
    exists []. split; [reflexivity|]. split; [reflexivity|].
    constructor; [|constructor]. simpl. lia.
  - assert (Hne : 0 < togo sx x2 x + togo sy y2 y).
    { clear IH. apply andb_false_iff in Eend. unfold togo in *.
      destruct Eend as [E|E]; apply Z.eqb_neq in E; 
        destruct sx_unit as [Hsx|Hsx], sy_unit as [Hsy|Hsy];
        rewrite Hsx, Hsy in *; lia. }
    set (st1 := plot bpp frac color st (x, y)).
    assert (Step : exists x' y' err',
      (let '(err0, x1) :=
         if err * 2 >? dy then (err + dy, x + sx) else (err, x) in
       let '(err1, y1) :=
         if err * 2 <? dx then (err0 + dx, y + sy) else (err0, y) in
       bresenham_loop fuel bpp frac color x2 y2 dx dy sx sy x1 y1 err1) st1
      = bresenham_loop fuel bpp frac color x2 y2 dx dy sx sy x' y' err' st1
      /\ bres_inv x2 y2 dx dy sx sy x' y' err'
      /\ togo sx x2 x' <= togo sx x2 x /\ togo sy y2 y' <= togo sy y2 y
      /\ togo sx x2 x' + togo sy y2 y' < togo sx x2 x + togo sy y2 y).
    { clear IH. unfold bres_inv, togo in *.
      destruct (err * 2 >? dy) eqn:E1; destruct (err * 2 <? dx) eqn:E2;
        [ exists (x + sx), (y + sy), (err + dy + dx)
        | exists (x + sx), y, (err + dy)
        | exists x, (y + sy), (err + dx)
        | exfalso ];
        try (split; [reflexivity|]);
        rewrite ?Z.gtb_ltb in E1;
        rewrite ?Z.ltb_lt, ?Z.ltb_ge in E1, E2;
        destruct sx_unit as [Hsx|Hsx], sy_unit as [Hsy|Hsy];
        rewrite Hsx, Hsy in *; nia. }
    destruct Step as (x' & y' & err' & -> & Inv' & Lx & Ly & Lt).
    destruct (IH x' y' err' st1 Inv') as (pts & Run & Last & Box); [lia|].
    exists ((x', y') :: pts). split; [exact Run|]. split.
    + exact Last.
    + constructor; [simpl; lia|].
      eapply Forall_impl; [|exact Box]. simpl. intros p. lia.
Qed.

End Bresenham.

Lemma bresenham_loop_more_fuel bpp frac color x2 y2 dx dy sx sy (fuel : nat) :
  forall fuel' x y err st st',
    (fuel <= fuel')%nat ->
    bresenham_loop fuel bpp frac color x2 y2 dx dy sx sy x y err st
      = (Ret tt, st') ->
    bresenham_loop fuel' bpp frac color x2 y2 dx dy sx sy x y err st
      = (Ret tt, st').
Proof.
  induction fuel as [|fuel IH]; intros fuel' x y err st st' Hle.
  - discriminate.
  - destruct fuel' as [|fuel']; [lia|].
    cbn [bresenham_loop]. unfold bind.
    destruct (pxbuf_store bpp (pixel_index frac x y) color st)
      as [[[]| e |] st1]; try (intros; discriminate).
    destruct ((x =? x2) && (y =? y2)); [trivial|].
    destruct (err * 2 >? dy), (err * 2 <? dx); apply IH; lia.
Qed.

(** Without a pointer to store through, the loop is left by the TypeError
    of its first store. *)
Lemma bresenham_raw bpp frac color x1 y1 x2 y2 st :
  bpp <> 2 -> bpp <> 4 ->
  bresenham bpp frac color x1 y1 x2 y2 st = (Raise TypeError, st).
Proof.
  intros H2 H4. unfold bresenham, bresenham_fuel.
  cbn [bresenham_loop]. unfold bind.
  now rewrite pxbuf_store_raw.
Qed.

Lemma pointer_or_raw (bpp : Z) :
  (bpp = 2 \/ bpp = 4) \/ (bpp <> 2 /\ bpp <> 4).
Proof. lia. Qed.

(** With a pointer to store through, the loop of [bresenham] ends, having
    written a chain of points that starts with (x1,y1), ends with (x2,y2)
    and stays in the box spanned by the two. *)
Lemma bresenham_run bpp frac color x1 y1 x2 y2 st :
  bpp = 2 \/ bpp = 4 ->
  exists pts,
    bresenham bpp frac color x1 y1 x2 y2 st
      = (Ret tt, plot_all bpp frac color ((x1, y1) :: pts) st)
    /\ last ((x1, y1) :: pts) (0, 0) = (x2, y2)
    /\ Forall (fun p => Z.min x1 x2 <= fst p <= Z.max x1 x2
                        /\ Z.min y1 y2 <= snd p <= Z.max y1 y2)
              ((x1, y1) :: pts).
Proof.
  intros Hptr. unfold bresenham, bresenham_fuel.
  set (sx := if x1 >? x2 then -1 else 1).
  set (sy := if y1 >? y2 then -1 else 1).
  assert (Hsx : sx = 1 /\ x1 <= x2 \/ sx = -1 /\ x2 < x1)
    by (unfold sx; destruct (Z.gtb_spec x1 x2); lia).
  assert (Hsy : sy = 1 /\ y1 <= y2 \/ sy = -1 /\ y2 < y1)
    by (unfold sy; destruct (Z.gtb_spec y1 y2); lia).
  destruct (bresenham_loop_run bpp frac color x2 y2
              (Z.abs (x2 - x1)) (- Z.abs (y2 - y1)) sx sy)
    with (fuel := S (Z.to_nat (Z.abs (x2 - x1) + Z.abs (y2 - y1))))
         (x := x1) (y := y1)
         (err := Z.abs (x2 - x1) + - Z.abs (y2 - y1)) (st := st)
    as (pts & Run & Last & Box); try lia; try exact Hptr.
  - unfold bres_inv, togo. nia.
  - unfold togo. lia.
  - exists pts. split; [exact Run|]. split; [exact Last|].
    eapply Forall_impl; [|exact Box]. unfold togo. cbv beta. intros p. nia.
Qed.

(** More rounds than [bresenham_fuel] grants change nothing. *)
Lemma bresenham_enough_fuel bpp frac color x1 y1 x2 y2 st (fuel : nat) :
  (bresenham_fuel x1 y1 x2 y2 <= fuel)%nat ->
  bresenham_loop fuel bpp frac color x2 y2
    (Z.abs (x2 - x1)) (- Z.abs (y2 - y1))
    (if x1 >? x2 then -1 else 1) (if y1 >? y2 then -1 else 1)
    x1 y1 (Z.abs (x2 - x1) + - Z.abs (y2 - y1)) st
  = bresenham bpp frac color x1 y1 x2 y2 st.
Proof.
  intros Hle.
  destruct (pointer_or_raw bpp) as [Hptr | [H2 H4]].
  - destruct (bresenham_run bpp frac color x1 y1 x2 y2 st Hptr)
      as (pts & Run & _).
    rewrite Run. eapply bresenham_loop_more_fuel; [exact Hle|].
    exact Run.
  - rewrite bresenham_raw by assumption.
    destruct fuel as [|fuel]; [unfold bresenham_fuel in Hle; lia|].
    cbn [bresenham_loop]. unfold bind. now rewrite pxbuf_store_raw.
Qed.

(** *** Pixel memory *)

Lemma decode_index (n x y : Z) :
  0 <= x < n -> (y * n + x) mod n = x /\ (y * n + x) / n = y.
Proof.
  intros Hx. split; symmetry.
  - apply Z.mod_unique with (q := y); [left; exact Hx | ring].
  - apply Z.div_unique with (r := x); [left; exact Hx | ring].
Qed.


Lemma pixel_index_exact (pitch bpp x y : Z) :
  0 < bpp -> pitch mod bpp = 0 ->
  pixel_index (inject_Z pitch / inject_Z bpp) x y = y * (pitch / bpp) + x.
Proof.
  intros Hb Hm. unfold pixel_index. apply Qtrunc_inject.
  assert (Hp : pitch = bpp * (pitch / bpp))
    by (apply Z.div_exact; [lia | exact Hm]).
  set (k := pitch / bpp) in *.
  rewrite inject_Z_plus, inject_Z_mult, Hp, inject_Z_mult.
  assert (Hq : ~ (inject_Z bpp == 0)%Q).
  { intros C. unfold Qeq in C. simpl in C. lia. }
  field. exact Hq.
Qed.

Lemma pxbuf_store_other (bpp idx color i : Z) (st : state) :
  i <> idx -> pixels (snd (pxbuf_store bpp idx color st)) i = pixels st i.
Proof.
  intros Hne. unfold pxbuf_store.
  destruct (pxbuf_of bpp); cbn; try reflexivity;
    destruct (Z.eqb_spec i idx); (contradiction || reflexivity).
Qed.

Lemma plot_all_other (bpp : Z) (frac : Q) (color i : Z) (pts : list (Z * Z)) :
  forall st,
    Forall (fun p => pixel_index frac (fst p) (snd p) <> i) pts ->
    pixels (plot_all bpp frac color pts st) i = pixels st i.
Proof.
  induction pts as [|p pts IH]; intros st H; [reflexivity|].
  inversion H as [|? ? Hp Hpts]; subst.
  unfold plot_all in *. cbn [fold_left]. rewrite IH by exact Hpts.
  unfold plot. apply pxbuf_store_other. congruence.
Qed.

Lemma plot_all_trace (bpp : Z) (frac : Q) (color : Z) (pts : list (Z * Z)) :
  bpp = 2 \/ bpp = 4 ->
  forall st,
    trace (plot_all bpp frac color pts st)
    = trace st
      ++ map (fun p => EvPixel (pixel_index frac (fst p) (snd p))
                               (color mod 2 ^ (8 * bpp))) pts.
Proof.
  intros Hptr.
  induction pts as [|p pts IH]; intros st.
  - simpl. now rewrite app_nil_r.
  - unfold plot_all in *. cbn [fold_left map]. rewrite IH.
    unfold plot. rewrite pxbuf_store_pointer by exact Hptr.
    simpl. now rewrite <- app_assoc.
Qed.


Lemma bresenham_loop_points bpp frac color x2 y2 dx dy sx sy (fuel : nat) :
  bpp = 2 \/ bpp = 4 ->
  forall x1 y1 err pts st,
    bresenham_points fuel x2 y2 dx dy sx sy x1 y1 err = Some pts ->
    bresenham_loop fuel bpp frac color x2 y2 dx dy sx sy x1 y1 err st
    = (Ret tt, plot_all bpp frac color pts st).
Proof.
  intros Hptr.
  induction fuel as [|fuel IH]; intros x1 y1 err pts st; [discriminate|].
  cbn [bresenham_points bresenham_loop]. unfold bind.
  rewrite (plot_pointer bpp frac color st x1 y1 Hptr).
  cbv iota beta.
  destruct ((x1 =? x2) && (y1 =? y2)).
  - intros [= <-]. reflexivity.
  - destruct (err * 2 >? dy), (err * 2 <? dx);
      match goal with
      | |- option_map _ ?o = _ -> _ => destruct o as [l|] eqn:E
      end; cbn [option_map]; try discriminate;
      intros [= <-]; rewrite (IH _ _ _ _ _ E); reflexivity.
Qed.

Lemma fill_pixels_outside (s : SDL_Surface) (r : option SDL_Rect)
    (color : Z) (px : Z -> Z) (x y : Z) :
  0 <= x < stride s ->
  in_rect (clip_rect s) x y = false ->
  fill_pixels s r color px (y * stride s + x) = px (y * stride s + x).
Proof.
  intros Hx Hout. unfold fill_pixels.
  destruct (decode_index (stride s) x y Hx) as [-> ->].
  rewrite Hout, andb_false_r. reflexivity.
Qed.


(** Filling an empty rectangle leaves every element as it was. *)
Lemma fill_pixels_empty (s : SDL_Surface) (r : SDL_Rect) (color : Z)
    (px : Z -> Z) (i : Z) :
  rw r <= 0 \/ rh r <= 0 ->
  fill_pixels s (Some r) color px i = px i.
Proof.
  intros He. unfold fill_pixels, in_rect.
  match goal with |- (if ?c then _ else _) = _ =>
    destruct c eqn:E; [exfalso | reflexivity] end.
  rewrite !andb_true_iff in E. rewrite !Z.leb_le, !Z.ltb_lt in E. lia.
Qed.

(** *** Writes stay inside the clip rectangle *)

Lemma clip_frame_refl (s : SDL_Surface) (st : state) : clip_frame s st st.
Proof. intros x y _ _. reflexivity. Qed.

Lemma clip_frame_trans (s : SDL_Surface) (st1 st2 st3 : state) :
  clip_frame s st1 st2 -> clip_frame s st2 st3 -> clip_frame s st1 st3.
Proof.
  intros H12 H23 x y Hx Hc. rewrite (H23 x y Hx Hc). apply H12; assumption.
Qed.

Lemma frames_ret (s : SDL_Surface) {A} (a : A) : frames s (ret a).
Proof. intros st. apply clip_frame_refl. Qed.

Lemma frames_raise (s : SDL_Surface) {A} (e : exn) : frames s (@raise A e).
Proof. intros st. apply clip_frame_refl. Qed.

Lemma frames_bind (s : SDL_Surface) {A B} (m : M A) (k : A -> M B) :
  frames s m -> (forall a, frames s (k a)) -> frames s (bind m k).
Proof.
  intros Hm Hk st. unfold bind. specialize (Hm st).
  destruct (m st) as [[a| |] st1]; simpl in *; try exact Hm.
  eapply clip_frame_trans; [exact Hm | apply Hk].
Qed.

Create HintDb frames.

#[local] Hint Resolve frames_ret frames_raise clip_frame_refl : frames.

Lemma SDL_FillRect_frames (s : SDL_Surface) r color :
  frames s (SDL_FillRect s r color).
Proof.
  intros st x y Hx Hc. unfold pixel. simpl.
  now apply fill_pixels_outside.
Qed.

Lemma SDL_FillRects_frames (s : SDL_Surface) rs count color :
  frames s (SDL_FillRects s rs count color).
Proof.
  intros st x y Hx Hc. unfold pixel. simpl.
  generalize (pixels st) as px.
  induction (firstn (Z.to_nat count) rs) as [|r l IH]; intros px;
    [reflexivity|].
  cbn [fold_left]. rewrite IH. now apply fill_pixels_outside.
Qed.

Lemma py_int_frames (s : SDL_Surface) v : frames s (py_int v).
Proof. destruct v; simpl; auto with frames. Qed.

Lemma bresenham_frames (s : SDL_Surface) (color x1 y1 x2 y2 : Z) :
  surface_ok s ->
  in_rect (clip_rect s) x1 y1 = true ->
  in_rect (clip_rect s) x2 y2 = true ->
  frames s (bresenham (BytesPerPixel (format s))
              (inject_Z (pitch s) / inject_Z (BytesPerPixel (format s)))
              color x1 y1 x2 y2).
Proof.
  intros (Hb & Hm & Hl & Hr) In1 In2 st x y Hx Hc.
  destruct (pointer_or_raw (BytesPerPixel (format s))) as [Hptr | [H2 H4]];
    [|now rewrite bresenham_raw by assumption].
  destruct (bresenham_run (BytesPerPixel (format s))
              (inject_Z (pitch s) / inject_Z (BytesPerPixel (format s)))
              color x1 y1 x2 y2 st Hptr) as (pts & -> & _ & Box).
  unfold pixel. cbn [snd]. apply plot_all_other.
  eapply Forall_impl; [|exact Box]. cbv beta.
  intros [px py]. cbn [fst snd]. intros (Bx & By).
  rewrite pixel_index_exact by assumption. fold (stride s).
  unfold in_rect in In1, In2.
  rewrite !andb_true_iff, !Z.leb_le, !Z.ltb_lt in In1, In2.
  intros E.
  assert (Hpx : 0 <= px < stride s) by lia.
  destruct (decode_index (stride s) px py Hpx) as [Mx Dy].
  destruct (decode_index (stride s) x y Hx) as [Mx' Dy'].
  rewrite E in Mx, Dy. rewrite Mx' in Mx. rewrite Dy' in Dy. subst px py.
  unfold in_rect in Hc.
  rewrite !andb_false_iff, !Z.leb_gt, !Z.ltb_ge in Hc. lia.
Qed.

(** *** One segment, and the loop over the segments *)

Lemma py_int_cases (v : pyval) :
  (exists z, py_int v = ret z) \/ py_int v = raise TypeError.
Proof. destruct v; simpl; eauto. Qed.

Section Segment.

Variables (s : SDL_Surface) (color width : Z) (frac : Q).
Variables (left top right bottom : Z).

Lemma draw_segment_vertical (x1 y1 x2 y2 : Z) :
  x1 = x2 ->
  draw_segment s color width frac left top right bottom (x1, y1, x2, y2)
  = SDL_FillRect s
      (Some (SDLRect (x1 - width / 2) (Z.min y1 y2) width (Z.abs (y2 - y1))))
      color.
Proof.
  intros <-. unfold draw_segment. rewrite Z.eqb_refl. cbv zeta.
  destruct (Z.ltb_spec y1 y2); do 3 f_equal; lia.
Qed.

Lemma draw_segment_horizontal (x1 y1 x2 y2 : Z) :
  x1 <> x2 -> y1 = y2 ->
  draw_segment s color width frac left top right bottom (x1, y1, x2, y2)
  = SDL_FillRect s
      (Some (SDLRect (Z.min x1 x2) (y1 - width / 2) (Z.abs (x2 - x1)) width))
      color.
Proof.
  intros Hx <-. unfold draw_segment.
  destruct (Z.eqb_spec x1 x2); [contradiction|].
  rewrite Z.eqb_refl. cbv zeta.
  destruct (Z.ltb_spec x1 x2); do 3 f_equal; lia.
Qed.

Lemma draw_segment_wide_diagonal (x1 y1 x2 y2 : Z) :
  x1 <> x2 -> y1 <> y2 -> width <> 1 ->
  draw_segment s color width frac left top right bottom (x1, y1, x2, y2)
  = raise (UnsupportedError MsgWidth).
Proof.
  intros Hx Hy Hw. unfold draw_segment.
  destruct (Z.eqb_spec x1 x2); [contradiction|].
  destruct (Z.eqb_spec y1 y2); [contradiction|].
  destruct (Z.eqb_spec width 1); [contradiction|]. reflexivity.
Qed.

(** Lines 154-179 for a diagonal segment of width 1, by the answer of the
    clipping routine. *)
Lemma draw_segment_thin_diagonal (x1 y1 x2 y2 : Z) (st : state) :
  x1 <> x2 -> y1 <> y2 -> width = 1 ->
  (clipline left top right bottom x1 y1 x2 y2
     = (PyNone, PyNone, PyNone, PyNone)
   /\ draw_segment s color width frac left top right bottom (x1, y1, x2, y2) st
      = (Raise TypeError, st))
  \/ (exists ix1 iy1 ix2 iy2,
        left <= ix1 <= right /\ top <= iy1 <= bottom
        /\ left <= ix2 <= right /\ top <= iy2 <= bottom
        /\ draw_segment s color width frac left top right bottom
             (x1, y1, x2, y2) st
           = bresenham (BytesPerPixel (format s)) frac color
               ix1 iy1 ix2 iy2 st).
Proof.
  intros Hx Hy Hw. unfold draw_segment.
  destruct (Z.eqb_spec x1 x2); [contradiction|].
  destruct (Z.eqb_spec y1 y2); [contradiction|].
  destruct (Z.eqb_spec width 1); [|contradiction]. cbn [negb].
  destruct (clipline_inside left top right bottom x1 y1 x2 y2)
    as [-> | (v1 & w1 & v2 & w2 & ix1 & iy1 & ix2 & iy2 & -> & I1 & J1 & I2
              & J2 & B)].
  - left. split; reflexivity.
  - right. exists ix1, iy1, ix2, iy2.
    destruct B as (B1 & B2 & B3 & B4). repeat split; try lia.
    rewrite (py_int_of_opt _ _ I1), (py_int_of_opt _ _ J1),
            (py_int_of_opt _ _ I2), (py_int_of_opt _ _ J2).
    reflexivity.
Qed.

(** The three ways a segment can end. *)
Lemma draw_segment_outcome (seg : Z * Z * Z * Z) (st : state) :
  (exists st',
     draw_segment s color width frac left top right bottom seg st
     = (Ret tt, st'))
  \/ (axis_aligned seg = false /\ width = 1
      /\ draw_segment s color width frac left top right bottom seg st
         = (Raise TypeError, st))
  \/ (axis_aligned seg = false /\ width <> 1
      /\ draw_segment s color width frac left top right bottom seg st
         = (Raise (UnsupportedError MsgWidth), st)).
Proof.
  destruct seg as [[[x1 y1] x2] y2]. unfold axis_aligned.
  destruct (Z.eqb_spec x1 x2) as [Ex|Ex].
  { left. rewrite draw_segment_vertical by exact Ex. eexists. reflexivity. }
  destruct (Z.eqb_spec y1 y2) as [Ey|Ey].
  { left. rewrite draw_segment_horizontal by assumption.
    eexists. reflexivity. }
  destruct (Z.eq_dec width 1) as [Ew|Ew].
  - destruct (draw_segment_thin_diagonal x1 y1 x2 y2 st Ex Ey Ew)
      as [[_ ->] | (ix1 & iy1 & ix2 & iy2 & _ & _ & _ & _ & ->)].
    + right. left. auto.
    + destruct (pointer_or_raw (BytesPerPixel (format s)))
        as [Hptr | [H2 H4]].
      * left.
        destruct (bresenham_run (BytesPerPixel (format s)) frac color
                    ix1 iy1 ix2 iy2 st Hptr) as (pts & -> & _).
        eexists. reflexivity.
      * right. left. rewrite bresenham_raw by assumption. auto.
  - right. right. rewrite draw_segment_wide_diagonal by assumption. auto.
Qed.

Lemma draw_segments_app (pre post : list (Z * Z * Z * Z)) (st : state) :
  draw_segments s color width frac left top right bottom (pre ++ post) st
  = bind (draw_segments s color width frac left top right bottom pre)
         (fun _ =>
            draw_segments s color width frac left top right bottom post) st.
Proof.
  revert st. induction pre as [|seg pre IH]; intros st; [reflexivity|].
  cbn [app draw_segments]. unfold bind in *.
  destruct (draw_segment s color width frac left top right bottom seg st)
    as [[[]| e |] st1]; try reflexivity.
  apply IH.
Qed.

(** Axis-aligned segments never make the loop stop. *)
Lemma draw_segments_axis_aligned (segs : list (Z * Z * Z * Z)) :
  forallb axis_aligned segs = true ->
  forall st, exists st',
    draw_segments s color width frac left top right bottom segs st
    = (Ret tt, st').
Proof.
  induction segs as [|seg segs IH]; intros Hall st; cbn [draw_segments].
  - eexists. reflexivity.
  - cbn [forallb] in Hall. apply andb_true_iff in Hall as [Hseg Hall].
    unfold bind.
    destruct (draw_segment_outcome seg st)
      as [[st1 ->] | [(Hd & _) | (Hd & _)]]; try congruence.
    apply IH. exact Hall.
Qed.

(** How the loop over the segments can end: normally, with the TypeError
    of a width-1 segment, or with the width error at the first segment that
    is not axis-aligned. *)
Lemma draw_segments_outcome (segs : list (Z * Z * Z * Z)) :
  forall st,
    (exists st',
       draw_segments s color width frac left top right bottom segs st
       = (Ret tt, st'))
    \/ (width = 1 /\ exists st',
          draw_segments s color width frac left top right bottom segs st
          = (Raise TypeError, st'))
    \/ (width <> 1 /\ exists pre seg post st',
          segs = pre ++ seg :: post
          /\ forallb axis_aligned pre = true
          /\ axis_aligned seg = false
          /\ draw_segments s color width frac left top right bottom pre st
             = (Ret tt, st')
          /\ draw_segments s color width frac left top right bottom segs st
             = (Raise (UnsupportedError MsgWidth), st')).
Proof.
  induction segs as [|seg segs IH]; intros st; cbn [draw_segments].
  - left. eexists. reflexivity.
  - unfold bind.
    destruct (draw_segment_outcome seg st)
      as [[st1 E] | [(Hd & Hw & E) | (Hd & Hw & E)]].
    + rewrite E.
      destruct (IH st1) as [[st' ->] | [(Hw & st' & ->) | (Hw & R)]].
      * left. eexists. reflexivity.
      * right. left. split; [exact Hw|]. eexists. reflexivity.
      * right. right. split; [exact Hw|].
        destruct R as (pre & sg & post & st' & -> & Hpre & Hsg & Hrun & ->).
        exists (seg :: pre), sg, post, st'.
        assert (Hax : axis_aligned seg = true).
        { destruct (axis_aligned seg) eqn:A; [reflexivity|].
          destruct (draw_segment_outcome seg st)
            as [[? E'] | [(_ & Hw' & _) | (_ & _ & E')]];
            [ | contradiction | rewrite E in E'; discriminate ].
          destruct seg as [[[x1 y1] x2] y2]. unfold axis_aligned in A.
          apply orb_false_iff in A as [A1 A2].
          apply Z.eqb_neq in A1, A2.
          rewrite draw_segment_wide_diagonal in E by assumption.
          discriminate. }
        repeat split; try assumption.
        -- cbn [forallb]. now rewrite Hax, Hpre.
        -- cbn [draw_segments]. unfold bind. rewrite E. exact Hrun.
    + rewrite E. right. left. split; [exact Hw|]. eexists. reflexivity.
    + rewrite E. right. right. split; [exact Hw|].
      exists [], seg, segs, st. repeat split; assumption.
Qed.

End Segment.

Lemma segments_flat (pre : list (Z * Z * Z * Z)) (rest : list Z) :
  segments (flat pre ++ rest) = pre ++ segments rest.
Proof.
  induction pre as [|[[[x1 y1] x2] y2] pre IH]; [reflexivity|].
  unfold flat in *. cbn [flat_map app segments]. now rewrite IH.
Qed.

Lemma length_flat (pre : list (Z * Z * Z * Z)) :
  Z.of_nat (length (flat pre)) mod 4 = 0.
Proof.
  assert (E : length (flat pre) = (4 * length pre)%nat).
  { induction pre as [|[[[x1 y1] x2] y2] pre IH]; [reflexivity|].
    unfold flat in *. cbn [flat_map app length]. rewrite IH. lia. }
  rewrite E, Nat2Z.inj_mul, Z.mul_comm. apply Z_mod_mult.
Qed.

Lemma draw_segment_frames (s : SDL_Surface) (color width : Z)
    (seg : Z * Z * Z * Z) :
  surface_ok s ->
  frames s (draw_segment s color width (scan_frac s)
              (rx (clip_rect s)) (ry (clip_rect s))
              (clip_right s) (clip_bottom s) seg).
Proof.
  intros Hok st. destruct seg as [[[x1 y1] x2] y2].
  destruct (Z.eq_dec x1 x2) as [Ex|Ex].
  { rewrite draw_segment_vertical by exact Ex. apply SDL_FillRect_frames. }
  destruct (Z.eq_dec y1 y2) as [Ey|Ey].
  { rewrite draw_segment_horizontal by assumption.
    apply SDL_FillRect_frames. }
  destruct (Z.eq_dec width 1) as [Ew|Ew].
  - destruct (draw_segment_thin_diagonal s color width (scan_frac s)
                (rx (clip_rect s)) (ry (clip_rect s))
                (clip_right s) (clip_bottom s) x1 y1 x2 y2 st Ex Ey Ew)
      as [[_ ->] | (ix1 & iy1 & ix2 & iy2 & B1 & B2 & B3 & B4 & ->)].
    + apply clip_frame_refl.
    + unfold clip_right, clip_bottom in *.
      apply bresenham_frames; [exact Hok | |];
        unfold in_rect; rewrite !andb_true_iff, !Z.leb_le, !Z.ltb_lt; lia.
  - rewrite draw_segment_wide_diagonal by assumption. apply clip_frame_refl.
Qed.

Lemma draw_on_frames (s : SDL_Surface) (color width : Z)
    (segs : list (Z * Z * Z * Z)) :
  surface_ok s -> frames s (draw_on s color width segs).
Proof.
  intros Hok. unfold draw_on.
  induction segs as [|seg segs IH]; cbn [draw_segments].
  - apply frames_ret.
  - apply frames_bind; [now apply draw_segment_frames | intros _; exact IH].
Qed.

(** *** The module's functions *)

Section Properties.

Variable color_arg : Type.
Variable convert_to_color : color_arg -> option Color.
Variable SDL_MapRGB : SDL_PixelFormat -> Z -> Z -> Z -> Z.
Variable SDL_MapRGBA : SDL_PixelFormat -> Z -> Z -> Z -> Z -> Z.

#[warnings="-notation-for-abbreviation"]
Local Notation prepare_color :=
  (prepare_color color_arg convert_to_color SDL_MapRGB SDL_MapRGBA).
#[warnings="-notation-for-abbreviation"]
Local Notation fill :=
  (fill color_arg convert_to_color SDL_MapRGB SDL_MapRGBA).
#[warnings="-notation-for-abbreviation"]
Local Notation line :=
  (line color_arg convert_to_color SDL_MapRGB SDL_MapRGBA).

Lemma prepare_color_cases (color : color_arg) (t : target) (st : state) :
  (exists c, prepare_color color t st = (Ret c, st))
  \/ (exists e, prepare_color color t st = (Raise e, st)).
Proof.
  unfold Draw.prepare_color, bind, ret, raise.
  destruct (convert_to_color color) as [c|]; [|right; eexists; reflexivity].
  destruct (target_pformat t) as [pf|]; [|right; eexists; reflexivity].
  destruct (negb (Amask pf =? 0)); left; eexists; reflexivity.
Qed.

Lemma prepare_color_errors color t st e :
  fst (prepare_color color t st) = Raise e -> e = ColorError \/ e = TypeError.
Proof.
  unfold Draw.prepare_color, bind, ret, raise.
  destruct (convert_to_color color) as [c|]; cbn; [|intros [= <-]; auto].
  destruct (target_pformat t) as [pf|]; cbn; [|intros [= <-]; auto].
  destruct (negb (Amask pf =? 0)); discriminate.
Qed.

Lemma get_target_cases (t : target) :
  (exists s, _get_target_surface t = ret s)
  \/ _get_target_surface t = raise TypeError.
Proof. destruct t; simpl; eauto. Qed.

Lemma coerce_rect_cases (r : pyval) :
  (exists rc, coerce_rect r = ret rc)
  \/ coerce_rect r = raise (ValueError MsgArea).
Proof.
  unfold coerce_rect.
  destruct r; eauto;
    repeat match goal with
           | |- context [match ?x with Some _ => _ | None => _ end] =>
               destruct x
           end; eauto.
Qed.

Lemma collect_rects_cases (area : list pyval) :
  forall rects st,
    (exists rs, collect_rects area rects st = (Ret rs, st))
    \/ collect_rects area rects st = (Raise (ValueError MsgArea), st).
Proof.
  induction area as [|r area IH]; intros rects st; cbn [collect_rects].
  - left. eexists. reflexivity.
  - unfold bind.
    destruct (coerce_rect_cases r) as [[rc ->] | ->]; cbn.
    + apply IH.
    + right. reflexivity.
Qed.

Lemma normalize_area_cases (area : pyval) (st : state) :
  (exists rs, normalize_area area st = (Ret rs, st))
  \/ normalize_area area st = (Raise (ValueError MsgArea), st).
Proof.
  unfold normalize_area. destruct (py_truthy area).
  - apply collect_rects_cases.
  - left. eexists. reflexivity.
Qed.

(** What [line] does once its arguments have passed the checks of lines
    106-126. *)
Lemma line_validated t color dline width st c s :
  1 <= width ->
  prepare_color color t st = (Ret c, st) ->
  _get_target_surface t = ret s ->
  Z.of_nat (length dline) mod 4 = 0 ->
  BytesPerPixel (format s) <> 0 ->
  BytesPerPixel (format s) <> 3 ->
  line t color dline width st = draw_on s c width (segments dline) st.
Proof.
  intros Hw Hc Hs Hl H0 H3. unfold Draw.line.
  destruct (Z.ltb_spec width 1); [lia|].
  unfold bind at 1. rewrite Hc. unfold bind at 1. rewrite Hs. cbn.
  rewrite Hl. cbn.
  destruct (Z.eqb_spec (BytesPerPixel (format s)) 0); [contradiction|].
  destruct (Z.eqb_spec (BytesPerPixel (format s)) 3); [contradiction|].
  reflexivity.
Qed.

(** [line] either raises with the state untouched or reaches its loop. *)
Lemma line_outcome t color dline width st :
  (exists e, line t color dline width st = (Raise e, st)
             /\ (e = ValueError MsgPoints ->
                 Z.of_nat (length dline) mod 4 <> 0)
             /\ e <> UnsupportedError MsgWidth)
  \/ (exists c s,
        1 <= width
        /\ prepare_color color t st = (Ret c, st)
        /\ _get_target_surface t = ret s
        /\ Z.of_nat (length dline) mod 4 = 0
        /\ BytesPerPixel (format s) <> 0
        /\ BytesPerPixel (format s) <> 3
        /\ line t color dline width st
           = draw_on s c width (segments dline) st).
Proof.
  destruct (Z.ltb_spec width 1) as [Hw|Hw].
  { left. unfold Draw.line. destruct (Z.ltb_spec width 1); [|lia].
    eexists. split; [reflexivity|]. split; discriminate. }
  destruct (prepare_color_cases color t st) as [[c Hc] | [e He]].
  2:{ left. unfold Draw.line. destruct (Z.ltb_spec width 1); [lia|].
      unfold bind at 1. rewrite He. eexists. split; [reflexivity|].
      assert (E : e = ColorError \/ e = TypeError)
        by (apply (prepare_color_errors color t st); now rewrite He).
      destruct E as [-> | ->]; split; discriminate. }
  destruct (get_target_cases t) as [[s Hs] | Hs].
  2:{ left. unfold Draw.line. destruct (Z.ltb_spec width 1); [lia|].
      unfold bind at 1. rewrite Hc. unfold bind at 1. rewrite Hs.
      eexists. split; [reflexivity|]. split; discriminate. }
  destruct (Z.eq_dec (Z.of_nat (length dline) mod 4) 0) as [Hl|Hl].
  2:{ left. unfold Draw.line. destruct (Z.ltb_spec width 1); [lia|].
      unfold bind at 1. rewrite Hc. unfold bind at 1. rewrite Hs. cbn.
      destruct (Z.eqb_spec (Z.of_nat (length dline) mod 4) 0); [contradiction|].
      eexists. split; [reflexivity|]. split; [trivial | discriminate]. }
  destruct (Z.eq_dec (BytesPerPixel (format s)) 0) as [H0|H0].
  { left. unfold Draw.line. destruct (Z.ltb_spec width 1); [lia|].
    unfold bind at 1. rewrite Hc. unfold bind at 1. rewrite Hs. cbn.
    rewrite Hl, H0. cbn. eexists. split; [reflexivity|]. split; discriminate. }
  destruct (Z.eq_dec (BytesPerPixel (format s)) 3) as [H3|H3].
  { left. unfold Draw.line. destruct (Z.ltb_spec width 1); [lia|].
    unfold bind at 1. rewrite Hc. unfold bind at 1. rewrite Hs. cbn.
    rewrite Hl, H3. cbn. eexists. split; [reflexivity|]. split; discriminate. }
  right. exists c, s. repeat split; try assumption.
  now apply line_validated.
Qed.

(** C10.  [prepare_color] leaves the state (pixel memory and calls made) as
    it found it and its result does not depend on that state.  Once the
    colour has been converted: a target whose pixel format has a non-zero
    alpha mask yields the RGBA packing of the colour in that format, a
    target whose format has a zero alpha mask yields the RGB packing
    (alpha not passed on), and a target on which no pixel format is found
    makes the call raise TypeError. *)
Theorem prepare_color_pure_packing (color : color_arg) (t : target)
    (st : state) :
  snd (prepare_color color t st) = st
  /\ (forall st',
        fst (prepare_color color t st') = fst (prepare_color color t st))
  /\ (forall c pf,
        convert_to_color color = Some c -> target_pformat t = Some pf ->
        Amask pf <> 0 ->
        fst (prepare_color color t st)
        = Ret (SDL_MapRGBA pf (cr c) (cg c) (cb c) (ca c)))
  /\ (forall c pf,
        convert_to_color color = Some c -> target_pformat t = Some pf ->
        Amask pf = 0 ->
        fst (prepare_color color t st)
        = Ret (SDL_MapRGB pf (cr c) (cg c) (cb c)))
  /\ (forall c,
        convert_to_color color = Some c -> target_pformat t = None ->
        fst (prepare_color color t st) = Raise TypeError).
Proof.
  unfold Draw.prepare_color, bind, ret, raise.
  repeat split.
  - destruct (convert_to_color color); [|reflexivity].
    destruct (target_pformat t) as [pf|]; [|reflexivity].
    destruct (negb (Amask pf =? 0)); reflexivity.
  - intros st'. destruct (convert_to_color color); [|reflexivity].
    destruct (target_pformat t) as [pf|]; [|reflexivity].
    destruct (negb (Amask pf =? 0)); reflexivity.
  - intros c pf -> -> Ha.
    destruct (Z.eqb_spec (Amask pf) 0); [contradiction | reflexivity].
  - intros c pf -> -> Ha. rewrite Ha. reflexivity.
  - intros c -> ->. reflexivity.
Qed.

Lemma c_rect_small (r : SDL_Rect) : rect_in_c_int r -> c_rect r = r.
Proof.
  destruct r as [x y w h]. unfold rect_in_c_int, c_rect, SDLRect.
  cbn [rx ry rw rh]. intros (Hx & Hy & Hw & Hh).
  now rewrite !c_int_small by assumption.
Qed.

Lemma c_rect_SDLRect (x y w h : Z) :
  c_rect (SDLRect x y w h) = SDLRect x y w h.
Proof.
  unfold c_rect, SDLRect. cbn [rx ry rw rh]. now rewrite !c_int_idem.
Qed.

Lemma coerce_rect_tuple (r : SDL_Rect) :
  coerce_rect (rect_tuple r) = ret (c_rect r).
Proof. destruct r as [x y w h]. reflexivity. Qed.

Lemma collect_rects_tuples (rs : list SDL_Rect) :
  forall acc st,
    collect_rects (map rect_tuple rs) acc st
    = (Ret (acc ++ map c_rect rs), st).
Proof.
  induction rs as [|r rs IH]; intros acc st; cbn [map collect_rects].
  - unfold ret. now rewrite app_nil_r.
  - unfold bind. rewrite coerce_rect_tuple. unfold ret at 1.
    rewrite IH. now rewrite <- app_assoc.
Qed.

(** How [fill] counts the areas it is given. *)
Lemma normalize_area_forms (st : state) :
  (forall rs, rs <> [] ->
     normalize_area (PySeq (map rect_tuple rs)) st
     = (Ret (map c_rect rs), st))
  /\ (forall r, normalize_area (rect_tuple r) st = (Ret [c_rect r], st))
  /\ (forall r, normalize_area (PyRect r) st = (Ret [r], st))
  /\ normalize_area PyNone st = (Ret [], st)
  /\ normalize_area (PySeq []) st = (Ret [], st).
Proof.
  repeat split; try reflexivity.
  - intros [|r rs] Hne; [contradiction|].
    unfold normalize_area. cbn [py_truthy map].
    change (area_items (PySeq (rect_tuple r :: map rect_tuple rs)))
      with (map rect_tuple (r :: rs)).
    apply (collect_rects_tuples (r :: rs) []).
Qed.

(** What [fill] does once colour, target and areas have been resolved
    (lines 89-96). *)
Lemma fill_resolved t color area st c s rects :
  prepare_color color t st = (Ret c, st) ->
  _get_target_surface t = ret s ->
  normalize_area area st = (Ret rects, st) ->
  fill t color area st
  = (if 2 <? Z.of_nat (length rects)
     then SDL_FillRects s rects (Z.of_nat (length rects)) c
     else if Z.of_nat (length rects) =? 1
          then SDL_FillRect s (nth_error rects 0) c
          else SDL_FillRect s None c) st.
Proof.
  intros Hc Hs Ha. unfold Draw.fill.
  unfold bind at 1. rewrite Hc. unfold bind at 1. rewrite Hs. cbn.
  unfold bind at 1. rewrite Ha. reflexivity.
Qed.

(** X13.  With colour and target resolved, [fill] makes exactly one SDL
    call, chosen by the number of rectangles collected from [area]: more
    than two give one batched call over all of them, exactly one gives one
    single-rectangle call with it, none gives one call without rectangle
    (the whole surface).  A list of n tuples gives the n SDL_Rect objects
    made from them, a lone tuple the one made from it, a lone rectangle
    object itself, an absent or empty [area] none. *)
Theorem fill_dispatch t color c s st :
  prepare_color color t st = (Ret c, st) ->
  _get_target_surface t = ret s ->
  (forall area rects,
     normalize_area area st = (Ret rects, st) -> (2 < length rects)%nat ->
     fill t color area st
     = SDL_FillRects s rects (Z.of_nat (length rects)) c st)
  /\ (forall area r,
        normalize_area area st = (Ret [r], st) ->
        fill t color area st = SDL_FillRect s (Some r) c st)
  /\ (forall area,
        normalize_area area st = (Ret [], st) ->
        fill t color area st = SDL_FillRect s None c st)
  /\ (forall rs, (2 < length rs)%nat ->
        fill t color (PySeq (map rect_tuple rs)) st
        = SDL_FillRects s (map c_rect rs) (Z.of_nat (length rs)) c st)
  /\ (forall r,
        fill t color (PySeq [rect_tuple r]) st
        = SDL_FillRect s (Some (c_rect r)) c st
        /\ fill t color (rect_tuple r) st
           = SDL_FillRect s (Some (c_rect r)) c st
        /\ fill t color (PyRect r) st = SDL_FillRect s (Some r) c st)
  /\ fill t color PyNone st = SDL_FillRect s None c st
  /\ fill t color (PySeq []) st = SDL_FillRect s None c st.
Proof.
  intros Hc Hs.
  destruct (normalize_area_forms st) as (Fl & Ft & Fr & Fn & Fe).
  assert (Many : forall area rects,
     normalize_area area st = (Ret rects, st) -> (2 < length rects)%nat ->
     fill t color area st
     = SDL_FillRects s rects (Z.of_nat (length rects)) c st).
  { intros area rects Ha Hn. rewrite (fill_resolved _ _ _ _ _ _ _ Hc Hs Ha).
    destruct (Z.ltb_spec 2 (Z.of_nat (length rects))); [reflexivity | lia]. }
  assert (One : forall area r,
     normalize_area area st = (Ret [r], st) ->
     fill t color area st = SDL_FillRect s (Some r) c st).
  { intros area r Ha. now rewrite (fill_resolved _ _ _ _ _ _ _ Hc Hs Ha). }
  assert (Zero : forall area,
     normalize_area area st = (Ret [], st) ->
     fill t color area st = SDL_FillRect s None c st).
  { intros area Ha. now rewrite (fill_resolved _ _ _ _ _ _ _ Hc Hs Ha). }
  repeat split; auto.
  - intros rs Hn.
    rewrite <- (length_map c_rect rs). apply Many.
    + apply Fl. intros ->. simpl in Hn. lia.
    + now rewrite length_map.
Qed.

(** C8 (what the code does).  A list of SDL_Rect objects, although it is
    one of the forms of [area] the docstring names, is never filled: its
    first item is not iterable, so lines 75-76 take the whole list for one
    area, the conversion of that area fails on the rectangle object in
    [int(r[0])], and [fill] raises the area ValueError without any call,
    whether the list holds three rectangles, two or one. *)
Theorem fill_rect_object_list_raises t color c s st (rs : list SDL_Rect) :
  prepare_color color t st = (Ret c, st) ->
  _get_target_surface t = ret s ->
  rs <> [] ->
  fill t color (PySeq (map PyRect rs)) st = (Raise (ValueError MsgArea), st).
Proof.
  intros Hc Hs Hne. unfold Draw.fill.
  unfold bind at 1. rewrite Hc. unfold bind at 1. rewrite Hs.
  destruct rs as [|r rs]; [contradiction|]. reflexivity.
Qed.


(** C5, as amended.  A point list whose length is not a multiple of 4
    makes [line] raise with the state (pixels and calls) untouched, and the
    error is the malformed-point-list ValueError whenever the width is at
    least 1 and colour and target resolve.  A length that is a multiple of
    4 never gives that error; this includes length 0, where a call that
    passes the other checks returns normally and writes nothing. *)
Theorem line_points_length t color dline width st :
  (Z.of_nat (length dline) mod 4 <> 0 ->
     (exists e, line t color dline width st = (Raise e, st))
     /\ (forall c s,
           1 <= width ->
           prepare_color color t st = (Ret c, st) ->
           _get_target_surface t = ret s ->
           line t color dline width st = (Raise (ValueError MsgPoints), st)))
  /\ (Z.of_nat (length dline) mod 4 = 0 ->
        fst (line t color dline width st) <> Raise (ValueError MsgPoints))
  /\ (forall c s,
        dline = [] ->
        1 <= width ->
        prepare_color color t st = (Ret c, st) ->
        _get_target_surface t = ret s ->
        BytesPerPixel (format s) <> 0 ->
        BytesPerPixel (format s) <> 3 ->
        line t color dline width st = (Ret tt, st)).
Proof.
  split; [|split].
  - intros Hl. split.
    + destruct (line_outcome t color dline width st)
        as [(e & E & _) | (c & s & _ & _ & _ & Hl' & _)];
        [eauto | contradiction].
    + intros c s Hw Hc Hs. unfold Draw.line.
      destruct (Z.ltb_spec width 1); [lia|].
      unfold bind at 1. rewrite Hc. unfold bind at 1. rewrite Hs. cbn.
      destruct (Z.eqb_spec (Z.of_nat (length dline) mod 4) 0);
        [contradiction | reflexivity].
  - intros Hl.
    destruct (line_outcome t color dline width st)
      as [(e & E & He & _) | (c & s & _ & _ & _ & _ & _ & _ & E)];
      rewrite E; cbn [fst].
    + intros [= ->]. now apply He.
    + destruct (draw_segments_outcome s c width (scan_frac s)
                  (rx (clip_rect s)) (ry (clip_rect s))
                  (clip_right s) (clip_bottom s) (segments dline) st)
        as [[st' R] | [(_ & st' & R) | (_ & pre & sg & post & st' & _ & _
                                          & _ & _ & R)]];
        unfold draw_on; rewrite R; discriminate.
  - intros c s -> Hw Hc Hs H0 H3.
    rewrite (line_validated t color [] width st c s); auto.
Qed.

(** C6.  The checks that concern the call as a whole fail before anything
    is written.  A width below 1 raises the width ValueError; with the
    width accepted and colour and target resolved, a length that is not a
    multiple of 4 raises the point-list ValueError, and otherwise 3 bytes
    per pixel raise the 24bpp UnsupportedError.  In each of the three
    situations, whatever else is wrong with the call, it raises and the
    state (pixels and calls) is the one it started from. *)
Theorem line_validation_atomic t color dline width st :
  (width < 1 ->
     line t color dline width st = (Raise (ValueError MsgWidthLow), st))
  /\ (forall c s,
        1 <= width ->
        prepare_color color t st = (Ret c, st) ->
        _get_target_surface t = ret s ->
        (Z.of_nat (length dline) mod 4 <> 0 ->
           line t color dline width st = (Raise (ValueError MsgPoints), st))
        /\ (Z.of_nat (length dline) mod 4 = 0 ->
            BytesPerPixel (format s) = 3 ->
            line t color dline width st
            = (Raise (UnsupportedError Msg24bpp), st)))
  /\ (width < 1
      \/ Z.of_nat (length dline) mod 4 <> 0
      \/ (exists s, _get_target_surface t = ret s
                    /\ BytesPerPixel (format s) = 3) ->
      exists e, line t color dline width st = (Raise e, st)).
Proof.
  split; [|split].
  - intros Hw. unfold Draw.line.
    destruct (Z.ltb_spec width 1); [reflexivity | lia].
  - intros c s Hw Hc Hs. split.
    + intros Hl. unfold Draw.line.
      destruct (Z.ltb_spec width 1); [lia|].
      unfold bind at 1. rewrite Hc. unfold bind at 1. rewrite Hs. cbn.
      destruct (Z.eqb_spec (Z.of_nat (length dline) mod 4) 0);
        [contradiction | reflexivity].
    + intros Hl H3. unfold Draw.line.
      destruct (Z.ltb_spec width 1); [lia|].
      unfold bind at 1. rewrite Hc. unfold bind at 1. rewrite Hs. cbn.
      rewrite Hl, H3. reflexivity.
  - intros H.
    destruct (line_outcome t color dline width st)
      as [(e & E & _) | (c & s & Hw & _ & Hs & Hl & _ & H3 & _)];
      [eauto | exfalso].
    destruct H as [H | [H | (s' & Hs' & H)]]; [lia | contradiction |].
    rewrite Hs in Hs'.
    assert (s = s').
    { assert (E : ret s blank = ret s' blank) by now rewrite Hs'.
      now inversion E. }
    subst s'. contradiction.
Qed.

(** C7.  In a call whose width is not 1, the width UnsupportedError comes
    up only at a segment that is neither vertical nor horizontal, all
    segments before it being axis-aligned.  When such a call has passed the
    whole-call checks and meets its first such segment, it raises that
    error and the state is the one that drawing the earlier segments alone
    leaves behind (a call that itself returns normally): their writes
    stay.  Without such a segment the call returns normally. *)
Theorem line_wide_diagonal t color dline width st :
  width <> 1 ->
  (fst (line t color dline width st) = Raise (UnsupportedError MsgWidth) ->
     exists pre seg post,
       segments dline = pre ++ seg :: post
       /\ forallb axis_aligned pre = true
       /\ axis_aligned seg = false)
  /\ (forall c s,
        1 <= width ->
        prepare_color color t st = (Ret c, st) ->
        _get_target_surface t = ret s ->
        Z.of_nat (length dline) mod 4 = 0 ->
        BytesPerPixel (format s) <> 0 ->
        BytesPerPixel (format s) <> 3 ->
        (forall pre seg post,
           segments dline = pre ++ seg :: post ->
           forallb axis_aligned pre = true ->
           axis_aligned seg = false ->
           fst (line t color (flat pre) width st) = Ret tt
           /\ line t color dline width st
              = (Raise (UnsupportedError MsgWidth),
                 snd (line t color (flat pre) width st)))
        /\ (forallb axis_aligned (segments dline) = true ->
            fst (line t color dline width st) = Ret tt)).
Proof.
  intros Hw1. split.
  - destruct (line_outcome t color dline width st)
      as [(e & E & _ & He) | (c & s & _ & _ & _ & _ & _ & _ & E)];
      rewrite E; cbn [fst].
    + intros [= ->]. contradiction.
    + unfold draw_on.
      destruct (draw_segments_outcome s c width (scan_frac s)
                  (rx (clip_rect s)) (ry (clip_rect s))
                  (clip_right s) (clip_bottom s) (segments dline) st)
        as [[st' R] | [(Hw & _) | (_ & pre & sg & post & st' & Hseg & Hpre
                                     & Hsg & _ & R)]];
        [rewrite R; discriminate | contradiction |].
      intros _. exists pre, sg, post. auto.
  - intros c s Hw Hc Hs Hl H0 H3. split.
    + intros pre seg post Hseg Hpre Hsg.
      rewrite (line_validated t color dline width st c s) by assumption.
      rewrite (line_validated t color (flat pre) width st c s);
        try assumption; [|apply length_flat].
      rewrite <- (app_nil_r (flat pre)), segments_flat, app_nil_r.
      rewrite Hseg. unfold draw_on.
      destruct (draw_segments_axis_aligned s c width (scan_frac s)
                  (rx (clip_rect s)) (ry (clip_rect s))
                  (clip_right s) (clip_bottom s) pre Hpre st) as [st1 R1].
      rewrite draw_segments_app. unfold bind at 1. rewrite R1.
      split; [reflexivity|]. cbn [draw_segments snd]. unfold bind.
      destruct seg as [[[x1 y1] x2] y2]. unfold axis_aligned in Hsg.
      apply orb_false_iff in Hsg as [A1 A2]. apply Z.eqb_neq in A1, A2.
      rewrite draw_segment_wide_diagonal by assumption. reflexivity.
    + intros Hall.
      rewrite (line_validated t color dline width st c s) by assumption.
      destruct (draw_segments_axis_aligned s c width (scan_frac s)
                  (rx (clip_rect s)) (ry (clip_rect s))
                  (clip_right s) (clip_bottom s) (segments dline) Hall st)
        as [st1 R1].
      unfold draw_on. now rewrite R1.
Qed.

Lemma fill_single_rect t color c s st (r : SDL_Rect) :
  prepare_color color t st = (Ret c, st) ->
  _get_target_surface t = ret s ->
  fill t color (rect_tuple r) st = SDL_FillRect s (Some (c_rect r)) c st.
Proof.
  intros Hc Hs.
  destruct (normalize_area_forms st) as (_ & Ft & _).
  now rewrite (fill_resolved _ _ _ _ _ _ _ Hc Hs (Ft r)).
Qed.

Lemma fill_single_tuple t color c s st (x y w h : Z) :
  prepare_color color t st = (Ret c, st) ->
  _get_target_surface t = ret s ->
  fill t color (PySeq [PyInt x; PyInt y; PyInt w; PyInt h]) st
  = SDL_FillRect s (Some (SDLRect x y w h)) c st.
Proof.
  intros Hc Hs.
  exact (fill_single_rect t color c s st (mkRect x y w h) Hc Hs).
Qed.

Lemma line_single_segment t color c s width st (seg : Z * Z * Z * Z) :
  1 <= width ->
  prepare_color color t st = (Ret c, st) ->
  _get_target_surface t = ret s ->
  BytesPerPixel (format s) <> 0 ->
  BytesPerPixel (format s) <> 3 ->
  line t color (flat [seg]) width st
  = bind (draw_segment s c width (scan_frac s)
            (rx (clip_rect s)) (ry (clip_rect s))
            (clip_right s) (clip_bottom s) seg)
         (fun _ => ret tt) st.
Proof.
  intros Hw Hc Hs H0 H3.
  rewrite (line_validated t color (flat [seg]) width st c s);
    try assumption; [|apply length_flat].
  rewrite <- (app_nil_r (flat [seg])), segments_flat. reflexivity.
Qed.

(** C4.  In a call that passes the whole-call checks, a vertical segment
    is drawn by exactly the single-rectangle fill of
    (x1 - w // 2, min(y1,y2), w, |y2 - y1|): the call of [line] with that
    one segment and the call of [fill] with that rectangle have the same
    outcome and leave the same state.  A horizontal segment leaves the
    pixel memory that filling (min(x1,x2), y1 - w // 2, |x2 - x1|, w)
    leaves, with the same outcome, and for x1 <> x2 the same state
    altogether.  The line from (5,2) to (5,10) of width 3 is the fill of
    (4, 2, 3, 8).  The rectangle may be handed to [fill] as the SDL_Rect
    object's fields or as the tuple of the four numbers themselves. *)
Theorem line_axis_aligned_is_fill t color c s width st x1 y1 x2 y2 :
  1 <= width ->
  prepare_color color t st = (Ret c, st) ->
  _get_target_surface t = ret s ->
  BytesPerPixel (format s) <> 0 ->
  BytesPerPixel (format s) <> 3 ->
  let vrect := spec_vertical_rect x1 y1 y2 width in
  let hrect := spec_horizontal_rect x1 y1 x2 width in
  (x1 = x2 ->
     line t color [x1; y1; x2; y2] width st = SDL_FillRect s (Some vrect) c st
     /\ line t color [x1; y1; x2; y2] width st
        = fill t color (rect_tuple vrect) st)
  /\ (y1 = y2 ->
        fst (line t color [x1; y1; x2; y2] width st)
        = fst (fill t color (rect_tuple hrect) st)
        /\ (forall i,
              pixels (snd (line t color [x1; y1; x2; y2] width st)) i
              = pixels (snd (fill t color (rect_tuple hrect) st)) i)
        /\ (x1 <> x2 ->
              line t color [x1; y1; x2; y2] width st
              = fill t color (rect_tuple hrect) st))
  /\ (width = 3 ->
        line t color [5; 2; 5; 10] width st
        = fill t color (rect_tuple (SDLRect 4 2 3 8)) st)
  /\ (x1 = x2 ->
        line t color [x1; y1; x2; y2] width st
        = fill t color
            (PySeq [PyInt (x1 - width / 2); PyInt (Z.min y1 y2);
                    PyInt width; PyInt (Z.abs (y2 - y1))]) st)
  /\ (x1 <> x2 -> y1 = y2 ->
        line t color [x1; y1; x2; y2] width st
        = fill t color
            (PySeq [PyInt (Z.min x1 x2); PyInt (y1 - width / 2);
                    PyInt (Z.abs (x2 - x1)); PyInt width]) st).
Proof.
  intros Hw Hc Hs H0 H3 vrect hrect.
  assert (V : x1 = x2 ->
    line t color [x1; y1; x2; y2] width st = SDL_FillRect s (Some vrect) c st).
  { intros Ex.
    change [x1; y1; x2; y2] with (flat [(x1, y1, x2, y2)]).
    rewrite (line_single_segment t color c s width st) by assumption.
    rewrite draw_segment_vertical by exact Ex. reflexivity. }
  assert (H : x1 <> x2 -> y1 = y2 ->
    line t color [x1; y1; x2; y2] width st = SDL_FillRect s (Some hrect) c st).
  { intros Ex Ey.
    change [x1; y1; x2; y2] with (flat [(x1, y1, x2, y2)]).
    rewrite (line_single_segment t color c s width st) by assumption.
    rewrite draw_segment_horizontal by assumption. reflexivity. }
  assert (Cv : c_rect vrect = vrect) by apply c_rect_SDLRect.
  assert (Ch : c_rect hrect = hrect) by apply c_rect_SDLRect.
  assert (Z0 : c_int 0 = 0) by reflexivity.
  split; [|split; [|split; [|split]]].
  - intros Ex. split; [now apply V|].
    rewrite (fill_single_rect t color c s st vrect) by assumption.
    rewrite Cv. now apply V.
  - intros Ey.
    rewrite (fill_single_rect t color c s st hrect) by assumption.
    rewrite Ch.
    destruct (Z.eq_dec x1 x2) as [Ex|Ex].
    + rewrite (V Ex). split; [reflexivity|]. split; [|contradiction].
      intros i. cbn [SDL_FillRect snd pixels].
      rewrite !fill_pixels_empty; [reflexivity | |];
        unfold hrect, vrect, spec_horizontal_rect, spec_vertical_rect,
          SDLRect; cbn [rw rh]; subst; rewrite Z.sub_diag; cbn [Z.abs];
        rewrite Z0; lia.
    + rewrite (H Ex Ey). auto.
  - intros ->.
    rewrite (fill_single_rect t color c s st (SDLRect 4 2 3 8)) by assumption.
    change [5; 2; 5; 10] with (flat [(5, 2, 5, 10)]).
    rewrite (line_single_segment t color c s 3 st) by assumption.
    rewrite draw_segment_vertical by reflexivity. reflexivity.
  - intros Ex. rewrite (V Ex).
    now rewrite (fill_single_tuple t color c s st) by assumption.
  - intros Ex Ey. rewrite (H Ex Ey).
    now rewrite (fill_single_tuple t color c s st) by assumption.
Qed.

Lemma ret_injective {A : Type} (a b : A) : @ret A a = ret b -> a = b.
Proof.
  intros E. assert (E' : ret a blank = ret b blank) by now rewrite E.
  now inversion E'.
Qed.

(** [fill] either raises with the state untouched or makes its call. *)
Lemma fill_outcome t color area st :
  (exists e, fill t color area st = (Raise e, st))
  \/ (exists c s rects,
        prepare_color color t st = (Ret c, st)
        /\ _get_target_surface t = ret s
        /\ normalize_area area st = (Ret rects, st)).
Proof.
  destruct (prepare_color_cases color t st) as [[c Hc] | [e He]].
  2:{ left. unfold Draw.fill. unfold bind at 1. rewrite He. eauto. }
  destruct (get_target_cases t) as [[s Hs] | Hs].
  2:{ left. unfold Draw.fill. unfold bind at 1. rewrite Hc.
      unfold bind at 1. rewrite Hs. eexists. reflexivity. }
  destruct (normalize_area_cases area st) as [[rects Ha] | Ha].
  2:{ left. unfold Draw.fill. unfold bind at 1. rewrite Hc.
      unfold bind at 1. rewrite Hs. cbn. unfold bind at 1. rewrite Ha.
      eexists. reflexivity. }
  right. exists c, s, rects. auto.
Qed.

(** C2.  On a surface with whole elements per scanline and a clip
    rectangle within the scanline, every pixel outside the clip rectangle
    holds after a call of [line] or [fill] the value it held before,
    whether the call returned or raised. *)
Theorem writes_stay_in_clip t s color dline width area st :
  _get_target_surface t = ret s ->
  surface_ok s ->
  clip_frame s st (snd (line t color dline width st))
  /\ clip_frame s st (snd (fill t color area st)).
Proof.
  intros Hs Hok. split.
  - destruct (line_outcome t color dline width st)
      as [(e & -> & _) | (c & s' & _ & _ & Hs' & _ & _ & _ & ->)].
    + apply clip_frame_refl.
    + rewrite Hs in Hs'. apply ret_injective in Hs'. subst s'.
      now apply draw_on_frames.
  - destruct (fill_outcome t color area st)
      as [(e & ->) | (c & s' & rects & Hc & Hs' & Ha)].
    + apply clip_frame_refl.
    + rewrite (fill_resolved _ _ _ _ _ _ _ Hc Hs' Ha).
      rewrite Hs in Hs'. apply ret_injective in Hs'. subst s'.
      destruct (2 <? Z.of_nat (length rects)).
      * apply SDL_FillRects_frames.
      * destruct (Z.of_nat (length rects) =? 1); apply SDL_FillRect_frames.
Qed.

(** C1 (what the code does).  A diagonal segment of width 1 without a
    point in the clip rectangle makes the segment's step raise TypeError,
    with nothing written: the sentinel of the clipping routine is handed
    to [int] before it is compared with [None].  So does the call
    line(target, color, [20, 20, 30, 31], 1) on the 10x10 surface. *)
Theorem line_outside_segment_type_error :
  (forall s c frac x1 y1 x2 y2 st,
     x1 <> x2 -> y1 <> y2 ->
     segment_outside (rx (clip_rect s)) (ry (clip_rect s))
                     (clip_right s) (clip_bottom s) x1 y1 x2 y2 ->
     draw_segment s c 1 frac (rx (clip_rect s)) (ry (clip_rect s))
                  (clip_right s) (clip_bottom s) (x1, y1, x2, y2) st
     = (Raise TypeError, st))
  /\ (forall color c st,
        prepare_color color (TSurface surface10) st = (Ret c, st) ->
        line (TSurface surface10) color [20; 20; 30; 31] 1 st
        = (Raise TypeError, st)).
Proof.
  assert (G : forall s c frac x1 y1 x2 y2 st,
     x1 <> x2 -> y1 <> y2 ->
     segment_outside (rx (clip_rect s)) (ry (clip_rect s))
                     (clip_right s) (clip_bottom s) x1 y1 x2 y2 ->
     draw_segment s c 1 frac (rx (clip_rect s)) (ry (clip_rect s))
                  (clip_right s) (clip_bottom s) (x1, y1, x2, y2) st
     = (Raise TypeError, st)).
  { intros s c frac x1 y1 x2 y2 st Hx Hy Out.
    unfold draw_segment.
    destruct (Z.eqb_spec x1 x2); [contradiction|].
    destruct (Z.eqb_spec y1 y2); [contradiction|].
    cbn [Z.eqb Pos.eqb negb].
    rewrite (clipline_outside _ _ _ _ _ _ _ _ Out). reflexivity. }
  split; [exact G|].
  intros color c st Hc.
  change [20; 20; 30; 31] with (flat [(20, 20, 30, 31)]).
  rewrite (line_single_segment _ color c surface10 1 st);
    [ | lia | exact Hc | reflexivity
      | vm_compute; discriminate | vm_compute; discriminate ].
  unfold bind. rewrite G; try discriminate; [reflexivity|].
  intros u Hu0 Hu1 (_ & Hr & _). cbn in Hr.
  change (inject_Z 20 + u * inject_Z 10 <= inject_Z 9)%Q in Hr.
  unfold inject_Z in Hr. lra.
Qed.


(** *** Further properties: the shape of a rasterized segment *)

Section BresenhamShape.

Variables (x2 y2 dx dy sx sy : Z).
Hypothesis dx_nonneg : 0 <= dx.
Hypothesis dy_nonpos : dy <= 0.
Hypothesis sx_unit : sx = 1 \/ sx = -1.
Hypothesis sy_unit : sy = 1 \/ sy = -1.

(** One round of the loop, when the end is not reached: a neighbour is
    visited next, and the invariant holds there. *)
Lemma bresenham_round (x y err : Z) :
  bres_inv x2 y2 dx dy sx sy x y err ->
  (x =? x2) && (y =? y2) = false ->
  exists x' y' err',
    (let '(err0, x1) :=
       if err * 2 >? dy then (err + dy, x + sx) else (err, x) in
     let '(err1, y1) :=
       if err * 2 <? dx then (err0 + dx, y + sy) else (err0, y) in
     (x1, y1, err1)) = (x', y', err')
    /\ bres_inv x2 y2 dx dy sx sy x' y' err'
    /\ king_step (x, y) (x', y')
    /\ togo sx x2 x' + togo sy y2 y' < togo sx x2 x + togo sy y2 y
    /\ (dy < err * 2 -> togo sx x2 x' = togo sx x2 x - 1)
    /\ (err * 2 < dx -> togo sy y2 y' = togo sy y2 y - 1)
    /\ (dy < err * 2 -> err * 2 < 3 * dx + 2 * dy -> - dy <= dx ->
        dy < err' * 2 < 3 * dx + 2 * dy)
    /\ (err * 2 < dx -> 2 * dx + 3 * dy < err * 2 -> dx <= - dy ->
        2 * dx + 3 * dy < err' * 2 < dx).
Proof.
  intros Inv Eend.
  apply andb_false_iff in Eend.
  assert (Hne : x <> x2 \/ y <> y2)
    by (destruct Eend as [E|E]; apply Z.eqb_neq in E; auto).
  clear Eend. unfold bres_inv, togo, king_step in *. cbn [fst snd].
  destruct (err * 2 >? dy) eqn:E1; destruct (err * 2 <? dx) eqn:E2;
    [ exists (x + sx), (y + sy), (err + dy + dx)
    | exists (x + sx), y, (err + dy)
    | exists x, (y + sy), (err + dx)
    | exfalso ];
    try (split; [reflexivity|]);
    rewrite ?Z.gtb_ltb in E1;
    rewrite ?Z.ltb_lt, ?Z.ltb_ge in E1, E2;
    destruct sx_unit as [Hsx|Hsx], sy_unit as [Hsy|Hsy];
    rewrite Hsx, Hsy in *; repeat split; nia.
Qed.

Lemma bresenham_points_unfold (fuel : nat) (x y err x' y' err' : Z) :
  (x =? x2) && (y =? y2) = false ->
  (let '(err0, x1) :=
     if err * 2 >? dy then (err + dy, x + sx) else (err, x) in
   let '(err1, y1) :=
     if err * 2 <? dx then (err0 + dx, y + sy) else (err0, y) in
   (x1, y1, err1)) = (x', y', err') ->
  bresenham_points (S fuel) x2 y2 dx dy sx sy x y err
  = option_map (cons (x, y))
      (bresenham_points fuel x2 y2 dx dy sx sy x' y' err').
Proof.
  intros Eend E. cbn [bresenham_points]. rewrite Eend.
  destruct (err * 2 >? dy), (err * 2 <? dx); inversion E; reflexivity.
Qed.

(** With fuel for every step still to go, the visited points form a chain
    of neighbours that starts at the current point. *)
Lemma bresenham_points_chained (fuel : nat) :
  forall x y err,
    bres_inv x2 y2 dx dy sx sy x y err ->
    (Z.to_nat (togo sx x2 x + togo sy y2 y) < fuel)%nat ->
    exists pts,
      bresenham_points fuel x2 y2 dx dy sx sy x y err = Some ((x, y) :: pts)
      /\ chained ((x, y) :: pts).
Proof.
  induction fuel as [|fuel IH]; intros x y err Inv Hf; [lia|].
  destruct ((x =? x2) && (y =? y2)) eqn:Eend.
  - exists []. cbn [bresenham_points]. rewrite Eend. cbn. auto.
  - destruct (bresenham_round x y err Inv Eend)
      as (x' & y' & err' & E & Inv' & K & Lt & _).
    destruct (IH x' y' err' Inv') as (pts & Run & Ch);
      [unfold bres_inv in Inv'; lia|].
    exists ((x', y') :: pts).
    rewrite (bresenham_points_unfold fuel x y err x' y' err' Eend E), Run.
    split; [reflexivity|]. cbn [chained] in *. tauto.
Qed.

(** Where the segment is at least as wide as high, every round steps in x:
    as many points are visited as x-steps are left, plus one. *)
Lemma bresenham_points_count_x (fuel : nat) :
  - dy <= dx -> 0 < dx ->
  forall x y err pts,
    bres_inv x2 y2 dx dy sx sy x y err ->
    dy < err * 2 < 3 * dx + 2 * dy ->
    bresenham_points fuel x2 y2 dx dy sx sy x y err = Some pts ->
    Z.of_nat (length pts) = togo sx x2 x + 1.
Proof.
  intros Hmaj Hpos.
  induction fuel as [|fuel IH]; intros x y err pts Inv J; [discriminate|].
  destruct ((x =? x2) && (y =? y2)) eqn:Eend.
  - cbn [bresenham_points]. rewrite Eend. intros [= <-].
    apply andb_true_iff in Eend as [Ex _]. apply Z.eqb_eq in Ex.
    unfold togo. subst x. cbn. lia.
  - destruct (bresenham_round x y err Inv Eend)
      as (x' & y' & err' & E & Inv' & _ & _ & Sx & _ & Jx & _).
    rewrite (bresenham_points_unfold fuel x y err x' y' err' Eend E).
    destruct (bresenham_points fuel x2 y2 dx dy sx sy x' y' err')
      as [l|] eqn:R; cbn [option_map]; [|discriminate].
    intros [= <-]. cbn [length]. rewrite Nat2Z.inj_succ.
    rewrite (IH x' y' err' l Inv'); [ | apply Jx; lia | exact R ].
    rewrite Sx by lia. lia.
Qed.

(** The same for a segment at least as high as wide. *)
Lemma bresenham_points_count_y (fuel : nat) :
  dx <= - dy -> dy < 0 ->
  forall x y err pts,
    bres_inv x2 y2 dx dy sx sy x y err ->
    2 * dx + 3 * dy < err * 2 < dx ->
    bresenham_points fuel x2 y2 dx dy sx sy x y err = Some pts ->
    Z.of_nat (length pts) = togo sy y2 y + 1.
Proof.
  intros Hmaj Hpos.
  induction fuel as [|fuel IH]; intros x y err pts Inv J; [discriminate|].
  destruct ((x =? x2) && (y =? y2)) eqn:Eend.
  - cbn [bresenham_points]. rewrite Eend. intros [= <-].
    apply andb_true_iff in Eend as [_ Ey]. apply Z.eqb_eq in Ey.
    unfold togo. subst y. cbn. lia.
  - destruct (bresenham_round x y err Inv Eend)
      as (x' & y' & err' & E & Inv' & _ & _ & _ & Sy & _ & Jy).
    rewrite (bresenham_points_unfold fuel x y err x' y' err' Eend E).
    destruct (bresenham_points fuel x2 y2 dx dy sx sy x' y' err')
      as [l|] eqn:R; cbn [option_map]; [|discriminate].
    intros [= <-]. cbn [length]. rewrite Nat2Z.inj_succ.
    rewrite (IH x' y' err' l Inv'); [ | apply Jy; lia | exact R ].
    rewrite Sy by lia. lia.
Qed.

End BresenhamShape.

Lemma bresenham_start_inv (x1 y1 x2 y2 : Z) :
  let sx := if x1 >? x2 then -1 else 1 in
  let sy := if y1 >? y2 then -1 else 1 in
  (sx = 1 \/ sx = -1) /\ (sy = 1 \/ sy = -1)
  /\ togo sx x2 x1 = Z.abs (x2 - x1)
  /\ togo sy y2 y1 = Z.abs (y2 - y1)
  /\ bres_inv x2 y2 (Z.abs (x2 - x1)) (- Z.abs (y2 - y1)) sx sy x1 y1
       (Z.abs (x2 - x1) + - Z.abs (y2 - y1)).
Proof.
  intros sx sy.
  assert (Hsx : sx = 1 /\ x1 <= x2 \/ sx = -1 /\ x2 < x1)
    by (unfold sx; destruct (Z.gtb_spec x1 x2); lia).
  assert (Hsy : sy = 1 /\ y1 <= y2 \/ sy = -1 /\ y2 < y1)
    by (unfold sy; destruct (Z.gtb_spec y1 y2); lia).
  unfold bres_inv, togo. repeat split; nia.
Qed.

(** The points that [bresenham] stores at. *)
Lemma bresenham_points_of_run bpp frac color x1 y1 x2 y2 st :
  bpp = 2 \/ bpp = 4 ->
  exists pts,
    bresenham_points (bresenham_fuel x1 y1 x2 y2) x2 y2
      (Z.abs (x2 - x1)) (- Z.abs (y2 - y1))
      (if x1 >? x2 then -1 else 1) (if y1 >? y2 then -1 else 1)
      x1 y1 (Z.abs (x2 - x1) + - Z.abs (y2 - y1)) = Some ((x1, y1) :: pts)
    /\ chained ((x1, y1) :: pts)
    /\ bresenham bpp frac color x1 y1 x2 y2 st
       = (Ret tt, plot_all bpp frac color ((x1, y1) :: pts) st).
Proof.
  intros Hptr.
  destruct (bresenham_start_inv x1 y1 x2 y2) as (Hsx & Hsy & Tx & Ty & Inv).
  cbv zeta in *.
  destruct (bresenham_points_chained x2 y2
              (Z.abs (x2 - x1)) (- Z.abs (y2 - y1))
              (if x1 >? x2 then -1 else 1) (if y1 >? y2 then -1 else 1)
              ltac:(lia) ltac:(lia) Hsx Hsy
              (bresenham_fuel x1 y1 x2 y2) x1 y1 _ Inv)
    as (pts & Run & Ch).
  { rewrite Tx, Ty. unfold bresenham_fuel. lia. }
  exists pts. split; [exact Run|]. split; [exact Ch|].
  unfold bresenham. now apply bresenham_loop_points.
Qed.

(** X1.  On a surface of 2 or 4 bytes per pixel the Bresenham loop of
    lines 161-179 ends normally and stores exactly
    max(|x2 - x1|, |y2 - y1|) + 1 times: one pixel per step along the
    longer side of the box spanned by the end points, both ends
    included. *)
Theorem bresenham_pixel_count bpp frac color x1 y1 x2 y2 st :
  bpp = 2 \/ bpp = 4 ->
  exists evs,
    fst (bresenham bpp frac color x1 y1 x2 y2 st) = Ret tt
    /\ trace (snd (bresenham bpp frac color x1 y1 x2 y2 st))
       = trace st ++ evs
    /\ forallb is_pixel_event evs = true
    /\ Z.of_nat (length evs)
       = Z.max (Z.abs (x2 - x1)) (Z.abs (y2 - y1)) + 1.
Proof.
  intros Hptr.
  destruct (bresenham_points_of_run bpp frac color x1 y1 x2 y2 st Hptr)
    as (pts & Pts & _ & Run).
  destruct (bresenham_start_inv x1 y1 x2 y2) as (Hsx & Hsy & Tx & Ty & Inv).
  cbv zeta in *.
  exists (map (fun p => EvPixel (pixel_index frac (fst p) (snd p))
                                (color mod 2 ^ (8 * bpp)))
              ((x1, y1) :: pts)).
  rewrite Run. cbn [fst snd]. split; [reflexivity|].
  split; [now apply plot_all_trace|]. split.
  - generalize ((x1, y1) :: pts). intros l.
    induction l as [|p l IH]; [reflexivity | exact IH].
  - rewrite length_map.
    destruct (Z_le_gt_dec (Z.abs (y2 - y1)) (Z.abs (x2 - x1))) as [Hm|Hm].
    + destruct (Z.eq_dec (Z.abs (x2 - x1)) 0) as [H0|H0].
      * assert (x1 = x2 /\ y1 = y2) as [-> ->] by lia.
        unfold bresenham_fuel in Pts. cbn [bresenham_points] in Pts.
        rewrite !Z.eqb_refl in Pts. cbn in Pts.
        injection Pts as <-. rewrite !Z.sub_diag. reflexivity.
      * rewrite (bresenham_points_count_x x2 y2
                   (Z.abs (x2 - x1)) (- Z.abs (y2 - y1))
                   (if x1 >? x2 then -1 else 1) (if y1 >? y2 then -1 else 1)
                   ltac:(lia) ltac:(lia) Hsx Hsy _ ltac:(lia) ltac:(lia)
                   _ _ _ _ Inv ltac:(lia) Pts).
        rewrite Tx. lia.
    + rewrite (bresenham_points_count_y x2 y2
                 (Z.abs (x2 - x1)) (- Z.abs (y2 - y1))
                 (if x1 >? x2 then -1 else 1) (if y1 >? y2 then -1 else 1)
                 ltac:(lia) ltac:(lia) Hsx Hsy _ ltac:(lia) ltac:(lia)
                 _ _ _ _ Inv ltac:(lia) Pts).
      rewrite Ty. lia.
Qed.

(** X2.  On a surface of 2 or 4 bytes per pixel the pixels the Bresenham
    loop stores at form a gap-free chain: the first is (x1,y1), and each
    further one is one of the eight neighbours of the pixel stored just
    before. *)
Theorem bresenham_connected bpp frac color x1 y1 x2 y2 st :
  bpp = 2 \/ bpp = 4 ->
  exists pts,
    bresenham bpp frac color x1 y1 x2 y2 st
    = (Ret tt, plot_all bpp frac color ((x1, y1) :: pts) st)
    /\ chained ((x1, y1) :: pts).
Proof.
  intros Hptr.
  destruct (bresenham_points_of_run bpp frac color x1 y1 x2 y2 st Hptr)
    as (pts & _ & Ch & Run).
  exists pts. auto.
Qed.


(** *** Further properties: targets, areas and batches *)

Lemma prepare_color_any_state color t st st' o :
  prepare_color color t st = (o, st) ->
  prepare_color color t st' = (o, st').
Proof.
  unfold Draw.prepare_color, bind, ret, raise.
  destruct (convert_to_color color) as [c|]; [|intros [= <-]; reflexivity].
  destruct (target_pformat t) as [pf|]; [|intros [= <-]; reflexivity].
  destruct (negb (Amask pf =? 0)); intros [= <-]; reflexivity.
Qed.

(** [fill] once colour and target are resolved: the areas are collected,
    then one call is made. *)
Lemma fill_after_checks t color area st c s :
  prepare_color color t st = (Ret c, st) ->
  _get_target_surface t = ret s ->
  fill t color area st
  = bind (normalize_area area)
      (fun rects =>
         if 2 <? Z.of_nat (length rects)
         then SDL_FillRects s rects (Z.of_nat (length rects)) c
         else if Z.of_nat (length rects) =? 1
              then SDL_FillRect s (nth_error rects 0) c
              else SDL_FillRect s None c) st.
Proof.
  intros Hc Hs. unfold Draw.fill.
  unfold bind at 1. rewrite Hc. unfold bind at 1. rewrite Hs. reflexivity.
Qed.

(** X3.  [fill] and [line] draw on surfaces and sprites only, and a sprite
    is treated exactly as its surface.  Any other target, including the
    surface pointer that [_get_target_surface] would accept and the pixel
    format that [prepare_color] accepts, makes both raise TypeError (once
    the colour has been converted and, for [line], the width accepted)
    with nothing written and no call made. *)
Theorem draw_only_on_surface_or_sprite :
  (forall s color area st,
     fill (TSprite s) color area st = fill (TSurface s) color area st)
  /\ (forall s color dline width st,
        line (TSprite s) color dline width st
        = line (TSurface s) color dline width st)
  /\ (forall t color c st,
        (forall s, t <> TSurface s) -> (forall s, t <> TSprite s) ->
        convert_to_color color = Some c ->
        (forall area, fill t color area st = (Raise TypeError, st))
        /\ (forall dline width, 1 <= width ->
              line t color dline width st = (Raise TypeError, st))).
Proof.
  split; [reflexivity|]. split; [reflexivity|].
  intros t color c st Hsurf Hspr Hconv.
  assert (Hcases :
    prepare_color color t st = (Raise TypeError, st)
    \/ (exists v, prepare_color color t st = (Ret v, st))
       /\ _get_target_surface t = raise TypeError).
  { unfold Draw.prepare_color, bind. rewrite Hconv.
    destruct t as [s|s|s|f|]; cbn.
    - exfalso. now apply (Hsurf s).
    - exfalso. now apply (Hspr s).
    - left. reflexivity.
    - right. split; [|reflexivity].
      destruct (negb (Amask f =? 0)); eexists; reflexivity.
    - left. reflexivity. }
  split.
  - intros area. unfold Draw.fill. unfold bind at 1.
    destruct Hcases as [-> | [[v ->] Ht]]; [reflexivity|].
    unfold bind at 1. rewrite Ht. reflexivity.
  - intros dline width Hw. unfold Draw.line.
    destruct (Z.ltb_spec width 1); [lia|]. unfold bind at 1.
    destruct Hcases as [-> | [[v ->] Ht]]; [reflexivity|].
    unfold bind at 1. rewrite Ht. reflexivity.
Qed.


(** X5.  An area given as a non-empty tuple of integers is read by its
    first four fields (x, y, w, h), further fields being ignored, and the
    rectangle filled is the SDL_Rect object made from them, each field
    reduced to a C int; with fewer than four fields [fill] raises the area
    ValueError and nothing is filled. *)
Theorem fill_tuple_area_fields t color c s st (l : list Z) :
  prepare_color color t st = (Ret c, st) ->
  _get_target_surface t = ret s ->
  l <> [] ->
  fill t color (PySeq (map PyInt l)) st
  = match l with
    | x :: y :: w :: h :: _ => SDL_FillRect s (Some (SDLRect x y w h)) c st
    | _ => (Raise (ValueError MsgArea), st)
    end.
Proof.
  intros Hc Hs Hne. rewrite (fill_after_checks t color _ st c s Hc Hs).
  destruct l as [|x [|y [|w [|h rest]]]]; [contradiction | | | |];
    reflexivity.
Qed.

Lemma collect_rects_app (a b : list pyval) :
  forall acc st,
    collect_rects (a ++ b) acc st
    = bind (collect_rects a acc) (fun rs => collect_rects b rs) st.
Proof.
  induction a as [|r a IH]; intros acc st; [reflexivity|].
  cbn [app collect_rects]. unfold bind in *.
  destruct (coerce_rect r st) as [[rc| e |] st1]; try reflexivity.
  apply IH.
Qed.

(** X6.  One malformed area spoils the whole list: when a list of areas
    that starts with well-formed tuples contains an area that cannot be
    made a rectangle, [fill] raises the area ValueError and fills none of
    the areas, not even those before the bad one. *)
Theorem fill_bad_area_fills_nothing t color c s st rs bad rest :
  prepare_color color t st = (Ret c, st) ->
  _get_target_surface t = ret s ->
  rs <> [] ->
  coerce_rect bad = raise (ValueError MsgArea) ->
  fill t color (PySeq (map rect_tuple rs ++ bad :: rest)) st
  = (Raise (ValueError MsgArea), st).
Proof.
  intros Hc Hs Hne Hbad. rewrite (fill_after_checks t color _ st c s Hc Hs).
  destruct rs as [|r rs]; [contradiction|].
  unfold bind at 1.
  assert (E : normalize_area
                (PySeq (map rect_tuple (r :: rs) ++ bad :: rest)) st
              = (Raise (ValueError MsgArea), st)).
  { unfold normalize_area. cbn [py_truthy map app].
    change (area_items (PySeq (rect_tuple r :: map rect_tuple rs
                                 ++ bad :: rest)))
      with (map rect_tuple (r :: rs) ++ bad :: rest).
    rewrite collect_rects_app. unfold bind at 1.
    rewrite collect_rects_tuples. cbn [collect_rects]. unfold bind.
    rewrite Hbad. reflexivity. }
  rewrite E. reflexivity.
Qed.

Lemma segments_app (d1 d2 : list Z) :
  Z.of_nat (length d1) mod 4 = 0 ->
  segments (d1 ++ d2) = segments d1 ++ segments d2.
Proof.
  intros Hl.
  assert (G : forall n d, length d = (4 * n)%nat ->
                segments (d ++ d2) = segments d ++ segments d2).
  { induction n as [|n IH]; intros d Hd.
    - destruct d; [reflexivity | discriminate].
    - destruct d as [|a [|b [|c [|e d]]]]; try (cbn in Hd; lia).
      cbn [app segments]. rewrite IH; [reflexivity|]. cbn in Hd. lia. }
  apply (G (length d1 / 4)%nat).
  apply Z.mod_divide in Hl; [|lia]. destruct Hl as [k Hk].
  assert (length d1 = (4 * Z.to_nat k)%nat) as -> by lia.
  rewrite Nat.mul_comm, Nat.div_mul by lia. lia.
Qed.

(** The checks of lines 106-126 do not look at the points, once their
    number is a multiple of 4. *)
Lemma line_checks t color width st :
  (exists e, forall d,
      Z.of_nat (length d) mod 4 = 0 ->
      line t color d width st = (Raise e, st))
  \/ (exists c s,
        1 <= width
        /\ prepare_color color t st = (Ret c, st)
        /\ _get_target_surface t = ret s
        /\ BytesPerPixel (format s) <> 0
        /\ BytesPerPixel (format s) <> 3).
Proof.
  destruct (Z.ltb_spec width 1) as [Hw|Hw].
  { left. eexists. intros d _. unfold Draw.line.
    destruct (Z.ltb_spec width 1); [reflexivity | lia]. }
  destruct (prepare_color_cases color t st) as [[c Hc] | [e He]].
  2:{ left. exists e. intros d _. unfold Draw.line.
      destruct (Z.ltb_spec width 1); [lia|].
      unfold bind at 1. now rewrite He. }
  destruct (get_target_cases t) as [[s Hs] | Hs].
  2:{ left. eexists. intros d _. unfold Draw.line.
      destruct (Z.ltb_spec width 1); [lia|].
      unfold bind at 1. rewrite Hc. unfold bind at 1. rewrite Hs.
      reflexivity. }
  destruct (Z.eq_dec (BytesPerPixel (format s)) 0) as [H0|H0].
  { left. eexists. intros d Hl. unfold Draw.line.
    destruct (Z.ltb_spec width 1); [lia|].
    unfold bind at 1. rewrite Hc. unfold bind at 1. rewrite Hs. cbn.
    rewrite Hl, H0. reflexivity. }
  destruct (Z.eq_dec (BytesPerPixel (format s)) 3) as [H3|H3].
  { left. eexists. intros d Hl. unfold Draw.line.
    destruct (Z.ltb_spec width 1); [lia|].
    unfold bind at 1. rewrite Hc. unfold bind at 1. rewrite Hs. cbn.
    rewrite Hl, H3. reflexivity. }
  right. exists c, s. auto.
Qed.

(** X7.  Drawing a batch is drawing its parts one after the other: for two
    point lists whose lengths are multiples of 4, the call with their
    concatenation has the outcome and the final state of the call with the
    first list followed, if that one returns, by the call with the
    second. *)
Theorem line_batch_split t color d1 d2 width st :
  Z.of_nat (length d1) mod 4 = 0 ->
  Z.of_nat (length d2) mod 4 = 0 ->
  line t color (d1 ++ d2) width st
  = bind (line t color d1 width) (fun _ => line t color d2 width) st.
Proof.
  intros H1 H2.
  assert (H12 : Z.of_nat (length (d1 ++ d2)) mod 4 = 0).
  { rewrite length_app, Nat2Z.inj_add, Z.add_mod, H1, H2 by lia.
    reflexivity. }
  destruct (line_checks t color width st)
    as [(e & E) | (c & s & Hw & Hc & Hs & H0 & H3)].
  - unfold bind. now rewrite (E _ H12), (E _ H1).
  - unfold bind.
    rewrite (line_validated t color (d1 ++ d2) width st c s) by assumption.
    rewrite (line_validated t color d1 width st c s) by assumption.
    rewrite (segments_app d1 d2 H1). unfold draw_on.
    rewrite draw_segments_app. unfold bind.
    destruct (draw_segments s c width (scan_frac s) (rx (clip_rect s))
                (ry (clip_rect s)) (clip_right s) (clip_bottom s)
                (segments d1) st) as [[[]| e |] st1]; try reflexivity.
    rewrite (line_validated t color d2 width st1 c s); try assumption;
      [reflexivity|].
    now apply (prepare_color_any_state color t st).
Qed.

(** X8.  [line] always comes to an end: the [while True] loop never
    outlasts the rounds granted to it.  And when [line] raises after
    having changed the state, the error is one of the two raised inside
    the loop over the segments: TypeError (only with width 1) or the width
    UnsupportedError (only with another width); every other error leaves
    the state as it was. *)
Theorem line_ends_and_late_errors t color dline width st :
  fst (line t color dline width st) <> Timeout
  /\ (forall e,
        fst (line t color dline width st) = Raise e ->
        snd (line t color dline width st) = st
        \/ (e = TypeError /\ width = 1)
        \/ (e = UnsupportedError MsgWidth /\ width <> 1)).
Proof.
  destruct (line_outcome t color dline width st)
    as [(e & -> & _) | (c & s & _ & _ & _ & _ & _ & _ & ->)].
  - split; [discriminate | auto].
  - unfold draw_on.
    destruct (draw_segments_outcome s c width (scan_frac s)
                (rx (clip_rect s)) (ry (clip_rect s))
                (clip_right s) (clip_bottom s) (segments dline) st)
      as [[st' ->] | [(Hw & st' & ->) | (Hw & pre & sg & post & st' & _ & _
                                           & _ & _ & ->)]];
      cbn [fst snd]; (split; [discriminate|]); intros e [= <-]; auto.
Qed.

Lemma draw_segment_axis_rect s color width frac left top right bottom seg :
  axis_aligned seg = true ->
  draw_segment s color width frac left top right bottom seg
  = SDL_FillRect s (Some (axis_rect width seg)) color.
Proof.
  destruct seg as [[[x1 y1] x2] y2]. unfold axis_aligned, draw_segment,
    axis_rect.
  destruct (x1 =? x2); [reflexivity|]. cbn [orb]. intros ->. reflexivity.
Qed.

(** X9.  A batch of axis-aligned segments, in a call that passes the
    whole-call checks, returns after exactly one single-rectangle fill
    per segment, made in the order of the point list with the SDL_Rect
    object of lines 138-149 (its fields reduced to C ints); nothing else
    is called or stored. *)
Theorem line_axis_aligned_batch t color c s width st segs :
  1 <= width ->
  prepare_color color t st = (Ret c, st) ->
  _get_target_surface t = ret s ->
  BytesPerPixel (format s) <> 0 ->
  BytesPerPixel (format s) <> 3 ->
  forallb axis_aligned segs = true ->
  fst (line t color (flat segs) width st) = Ret tt
  /\ trace (snd (line t color (flat segs) width st))
     = trace st
       ++ map (fun seg => EvFillRect s (Some (axis_rect width seg)) c) segs.
Proof.
  intros Hw Hc Hs H0 H3 Hall.
  rewrite (line_validated t color (flat segs) width st c s);
    try assumption; [|apply length_flat].
  rewrite <- (app_nil_r (flat segs)), segments_flat, app_nil_r.
  unfold draw_on. clear Hc. revert st.
  induction segs as [|seg segs IH]; intros st; cbn [draw_segments map].
  - rewrite app_nil_r. split; reflexivity.
  - cbn [forallb] in Hall. apply andb_true_iff in Hall as [Hseg Hall].
    rewrite draw_segment_axis_rect by exact Hseg. unfold bind. cbn.
    destruct (IH Hall
                (mkState (fill_pixels s (Some (axis_rect width seg)) c
                            (pixels st))
                         (trace st
                          ++ [EvFillRect s (Some (axis_rect width seg)) c])))
      as [F T].
    split; [exact F|]. rewrite T. cbn [trace]. now rewrite <- app_assoc.
Qed.

(** X10.  A vertical segment of width w whose rectangle
    (x - w // 2, min(y1,y2), w, |y2 - y1|) consists of C ints colours,
    within the clip rectangle, the columns x - w // 2 to
    x - w // 2 + w - 1 of the rows from min(y1,y2) up to but not including
    max(y1,y2), and no other pixel: the row of the far end point is left
    as it was, and a segment whose end points coincide colours nothing. *)
Theorem line_vertical_coverage t color c s width st x y1 y2 :
  1 <= width ->
  prepare_color color t st = (Ret c, st) ->
  _get_target_surface t = ret s ->
  BytesPerPixel (format s) <> 0 ->
  BytesPerPixel (format s) <> 3 ->
  rect_in_c_int (mkRect (x - width / 2) (Z.min y1 y2) width
                        (Z.abs (y2 - y1))) ->
  (forall px py, 0 <= px < stride s ->
     pixel s (snd (line t color [x; y1; x; y2] width st)) px py
     = if in_rect (clip_rect s) px py
          && ((x - width / 2 <=? px) && (px <? x - width / 2 + width)
              && (Z.min y1 y2 <=? py) && (py <? Z.max y1 y2))
       then c mod 2 ^ (8 * BytesPerPixel (format s))
       else pixel s st px py)
  /\ (forall px, 0 <= px < stride s ->
        pixel s (snd (line t color [x; y1; x; y2] width st)) px (Z.max y1 y2)
        = pixel s st px (Z.max y1 y2)).
Proof.
  intros Hw Hc Hs H0 H3 Hr.
  assert (G : forall px py, 0 <= px < stride s ->
     pixel s (snd (line t color [x; y1; x; y2] width st)) px py
     = if in_rect (clip_rect s) px py
          && ((x - width / 2 <=? px) && (px <? x - width / 2 + width)
              && (Z.min y1 y2 <=? py) && (py <? Z.max y1 y2))
       then c mod 2 ^ (8 * BytesPerPixel (format s))
       else pixel s st px py).
  { intros px py Hpx.
    change [x; y1; x; y2] with (flat [(x, y1, x, y2)]).
    rewrite (line_single_segment t color c s width st) by assumption.
    rewrite draw_segment_vertical by reflexivity.
    change (SDLRect (x - width / 2) (Z.min y1 y2) width (Z.abs (y2 - y1)))
      with (c_rect (mkRect (x - width / 2) (Z.min y1 y2) width
                           (Z.abs (y2 - y1)))).
    rewrite (c_rect_small _ Hr).
    unfold pixel, bind. cbn [SDL_FillRect snd pixels ret].
    unfold fill_pixels.
    destruct (decode_index (stride s) px py Hpx) as [-> ->].
    destruct (Z.ltb_spec 0 (stride s)); [|lia]. cbn [andb].
    unfold in_rect at 2. cbn [rx ry rw rh].
    replace (Z.min y1 y2 + Z.abs (y2 - y1)) with (Z.max y1 y2) by lia.
    reflexivity. }
  split; [exact G|].
  intros px Hpx. rewrite (G px (Z.max y1 y2) Hpx).
  rewrite Z.ltb_irrefl, !andb_false_r. reflexivity.
Qed.

Lemma plot_all_events bpp frac color pts st :
  bpp = 2 \/ bpp = 4 ->
  exists evs,
    trace (plot_all bpp frac color pts st) = trace st ++ evs
    /\ Forall (fun ev => exists idx,
                 ev = EvPixel idx (color mod 2 ^ (8 * bpp))) evs.
Proof.
  intros Hptr.
  rewrite plot_all_trace by exact Hptr. eexists. split; [reflexivity|].
  induction pts as [|p pts IH]; cbn [map]; constructor; eauto.
Qed.

(** X11.  Whatever [line] does to the surface, it does with the one
    colour packed at the start of the call: in a call that passes the
    whole-call checks, whether it returns or raises later, everything
    added to the record of calls is a single-rectangle fill of the target
    surface with that colour or a store of that colour as one pixel-buffer
    element; no batched fill and no fill without rectangle is made. *)
Theorem line_uses_one_color t color c s dline width st :
  1 <= width ->
  prepare_color color t st = (Ret c, st) ->
  _get_target_surface t = ret s ->
  Z.of_nat (length dline) mod 4 = 0 ->
  BytesPerPixel (format s) <> 0 ->
  BytesPerPixel (format s) <> 3 ->
  exists evs,
    trace (snd (line t color dline width st)) = trace st ++ evs
    /\ Forall (fun ev =>
                 (exists r, ev = EvFillRect s (Some r) c)
                 \/ (exists idx,
                       ev = EvPixel idx
                              (c mod 2 ^ (8 * BytesPerPixel (format s)))))
           evs.
Proof.
  intros Hw Hc Hs Hl H0 H3.
  rewrite (line_validated t color dline width st c s) by assumption.
  unfold draw_on. clear Hc. generalize (segments dline) as segs.
  intros segs. revert st.
  induction segs as [|seg segs IH]; intros st; cbn [draw_segments].
  - exists []. split; [now rewrite app_nil_r | constructor].
  - unfold bind.
    assert (Hseg : exists evs1,
      trace (snd (draw_segment s c width (scan_frac s) (rx (clip_rect s))
                    (ry (clip_rect s)) (clip_right s) (clip_bottom s)
                    seg st)) = trace st ++ evs1
      /\ Forall (fun ev =>
                 (exists r, ev = EvFillRect s (Some r) c)
                 \/ (exists idx,
                       ev = EvPixel idx
                              (c mod 2 ^ (8 * BytesPerPixel (format s)))))
           evs1).
    { destruct (axis_aligned seg) eqn:A.
      - rewrite draw_segment_axis_rect by exact A. cbn.
        eexists. split; [reflexivity|]. constructor; eauto.
      - destruct seg as [[[x1 y1] x2] y2]. unfold axis_aligned in A.
        apply orb_false_iff in A as [A1 A2]. apply Z.eqb_neq in A1, A2.
        destruct (Z.eq_dec width 1) as [Ew|Ew].
        + destruct (draw_segment_thin_diagonal s c width (scan_frac s)
                      (rx (clip_rect s)) (ry (clip_rect s))
                      (clip_right s) (clip_bottom s) x1 y1 x2 y2 st A1 A2 Ew)
            as [[_ ->] | (ix1 & iy1 & ix2 & iy2 & _ & _ & _ & _ & ->)].
          * exists []. split; [now rewrite app_nil_r | constructor].
          * destruct (pointer_or_raw (BytesPerPixel (format s)))
              as [Hptr | [Hn2 Hn4]].
            -- destruct (bresenham_run (BytesPerPixel (format s))
                          (scan_frac s) c ix1 iy1 ix2 iy2 st Hptr)
                 as (pts & -> & _).
               cbn [snd].
               destruct (plot_all_events (BytesPerPixel (format s))
                           (scan_frac s) c ((ix1, iy1) :: pts) st Hptr)
                 as (evs & T & F).
               exists evs. split; [exact T|].
               eapply Forall_impl; [|exact F]. cbv beta. eauto.
            -- rewrite bresenham_raw by assumption.
               exists []. split; [now rewrite app_nil_r | constructor].
        + rewrite draw_segment_wide_diagonal by assumption.
          exists []. split; [now rewrite app_nil_r | constructor]. }
    destruct Hseg as (evs1 & T1 & F1).
    destruct (draw_segment s c width (scan_frac s) (rx (clip_rect s))
                (ry (clip_rect s)) (clip_right s) (clip_bottom s) seg st)
      as [[[]| e |] st1]; cbn [snd] in *; eauto.
    destruct (IH st1) as (evs2 & T2 & F2).
    exists (evs1 ++ evs2). rewrite T2, T1, <- app_assoc.
    split; [reflexivity|]. apply Forall_app. auto.
Qed.

(** X12.  A horizontal segment (x1 <> x2) of width w whose rectangle
    (min(x1,x2), y - w // 2, |x2 - x1|, w) consists of C ints colours,
    within the clip rectangle, the rows y - w // 2 to y - w // 2 + w - 1
    of the columns from min(x1,x2) up to but not including max(x1,x2), and
    no other pixel: the column of the far end point is left as it was. *)
Theorem line_horizontal_coverage t color c s width st x1 x2 y :
  1 <= width ->
  prepare_color color t st = (Ret c, st) ->
  _get_target_surface t = ret s ->
  BytesPerPixel (format s) <> 0 ->
  BytesPerPixel (format s) <> 3 ->
  x1 <> x2 ->
  rect_in_c_int (mkRect (Z.min x1 x2) (y - width / 2) (Z.abs (x2 - x1))
                        width) ->
  forall px py, 0 <= px < stride s ->
    pixel s (snd (line t color [x1; y; x2; y] width st)) px py
    = if in_rect (clip_rect s) px py
         && ((Z.min x1 x2 <=? px) && (px <? Z.max x1 x2)
             && (y - width / 2 <=? py) && (py <? y - width / 2 + width))
      then c mod 2 ^ (8 * BytesPerPixel (format s))
      else pixel s st px py.
Proof.
  intros Hw Hc Hs H0 H3 Hx Hr px py Hpx.
  change [x1; y; x2; y] with (flat [(x1, y, x2, y)]).
  rewrite (line_single_segment t color c s width st) by assumption.
  rewrite draw_segment_horizontal by (exact Hx || reflexivity).
  change (SDLRect (Z.min x1 x2) (y - width / 2) (Z.abs (x2 - x1)) width)
    with (c_rect (mkRect (Z.min x1 x2) (y - width / 2) (Z.abs (x2 - x1))
                         width)).
  rewrite (c_rect_small _ Hr).
  unfold pixel, bind. cbn [SDL_FillRect snd pixels ret].
  unfold fill_pixels.
  destruct (decode_index (stride s) px py Hpx) as [-> ->].
  destruct (Z.ltb_spec 0 (stride s)); [|lia]. cbn [andb].
  unfold in_rect at 2. cbn [rx ry rw rh].
  replace (Z.min x1 x2 + Z.abs (x2 - x1)) with (Z.max x1 x2) by lia.
  reflexivity.
Qed.

End Properties.

(** *** The module run on concrete calls *)

#[warnings="-notation-for-abbreviation"]
Local Notation prepare_color_argb :=
  (prepare_color Color Some pack_rgb pack_rgba).
#[warnings="-notation-for-abbreviation"]
Local Notation fill_argb := (fill Color Some pack_rgb pack_rgba).
#[warnings="-notation-for-abbreviation"]
Local Notation line_argb := (line Color Some pack_rgb pack_rgba).
#[warnings="-notation-for-abbreviation"]
Local Notation white_argb := (pack_rgba (format surface10) 255 255 255 255).

Lemma surface10_ok : surface_ok surface10.
Proof.
  unfold surface_ok, stride. cbn. repeat split; try reflexivity; discriminate.
Defined.

Lemma prepare_color_pure_packing_witness :
  Some white = Some white
  /\ target_pformat (TSurface surface10) = Some (format surface10)
  /\ Amask (format surface10) <> 0
  /\ fst (prepare_color_argb white (TSurface surface10) blank)
     = Ret white_argb.
Proof.
  assert (Ha : Amask (format surface10) <> 0) by (cbn; discriminate).
  split; [reflexivity|]. split; [reflexivity|]. split; [exact Ha|].
  exact (proj1 (proj2 (proj2
           (prepare_color_pure_packing Color Some pack_rgb pack_rgba
              white (TSurface surface10) blank)))
           white (format surface10) eq_refl eq_refl Ha).
Defined.

Lemma fill_dispatch_witness :
  prepare_color_argb white (TSurface surface10) blank
  = (Ret white_argb, blank)
  /\ _get_target_surface (TSurface surface10) = ret surface10
  /\ (2 < length [SDLRect 0 0 2 2; SDLRect 3 3 2 2; SDLRect 6 6 2 2])%nat
  /\ fill_argb (TSurface surface10) white
       (PySeq (map rect_tuple
                 [SDLRect 0 0 2 2; SDLRect 3 3 2 2; SDLRect 6 6 2 2])) blank
     = SDL_FillRects surface10
         [SDLRect 0 0 2 2; SDLRect 3 3 2 2; SDLRect 6 6 2 2] 3
         white_argb blank.
Proof.
  assert (Hn : (2 < length [SDLRect 0 0 2 2; SDLRect 3 3 2 2;
                            SDLRect 6 6 2 2])%nat) by (cbn; lia).
  split; [reflexivity|]. split; [reflexivity|]. split; [exact Hn|].
  exact (proj1 (proj2 (proj2 (proj2
           (fill_dispatch Color Some pack_rgb pack_rgba
              (TSurface surface10) white white_argb surface10 blank
              eq_refl eq_refl)))) _ Hn).
Defined.



Lemma fill_rect_object_list_raises_witness :
  prepare_color_argb white (TSurface surface10) blank
  = (Ret white_argb, blank)
  /\ _get_target_surface (TSurface surface10) = ret surface10
  /\ [SDLRect 0 0 2 2; SDLRect 3 3 2 2; SDLRect 6 6 2 2] <> []
  /\ fill_argb (TSurface surface10) white
       (PySeq (map PyRect
                 [SDLRect 0 0 2 2; SDLRect 3 3 2 2; SDLRect 6 6 2 2])) blank
     = (Raise (ValueError MsgArea), blank).
Proof.
  assert (Hne : [SDLRect 0 0 2 2; SDLRect 3 3 2 2; SDLRect 6 6 2 2] <> [])
    by discriminate.
  split; [reflexivity|]. split; [reflexivity|]. split; [exact Hne|].
  exact (fill_rect_object_list_raises Color Some pack_rgb pack_rgba
           (TSurface surface10) white white_argb surface10 blank
           [SDLRect 0 0 2 2; SDLRect 3 3 2 2; SDLRect 6 6 2 2]
           eq_refl eq_refl Hne).
Defined.

(** C5, the claim as first stated fails: the empty point list is accepted,
    the call returns normally. *)
Lemma line_empty_points_accepted :
  ~ (0 < Z.of_nat (length (@nil Z)))
  /\ line_argb (TSurface surface10) white [] 1 blank = (Ret tt, blank)
  /\ fst (line_argb (TSurface surface10) white [] 1 blank)
     <> Raise (ValueError MsgPoints).
Proof.
  split; [cbn; lia|]. split; [reflexivity | discriminate].
Defined.

Lemma line_points_length_witness :
  Z.of_nat (length [1; 2; 3]) mod 4 <> 0
  /\ 1 <= 1
  /\ prepare_color_argb white (TSurface surface10) blank
     = (Ret white_argb, blank)
  /\ _get_target_surface (TSurface surface10) = ret surface10
  /\ line_argb (TSurface surface10) white [1; 2; 3] 1 blank
     = (Raise (ValueError MsgPoints), blank).
Proof.
  assert (Hl : Z.of_nat (length [1; 2; 3]) mod 4 <> 0) by (cbn; discriminate).
  assert (Hw : 1 <= 1) by lia.
  split; [exact Hl|]. split; [exact Hw|].
  split; [reflexivity|]. split; [reflexivity|].
  exact (proj2 (proj1 (line_points_length Color Some pack_rgb pack_rgba
                         (TSurface surface10) white [1; 2; 3] 1 blank) Hl)
           white_argb surface10 Hw eq_refl eq_refl).
Defined.

Lemma line_validation_atomic_witness :
  (0 < 1
   /\ line_argb (TSurface surface10) white [0; 0; 5; 5] 0 blank
      = (Raise (ValueError MsgWidthLow), blank))
  /\ (BytesPerPixel (format surface10_24) = 3
      /\ line_argb (TSurface surface10_24) white [0; 0; 5; 5] 1 blank
         = (Raise (UnsupportedError Msg24bpp), blank)).
Proof.
  assert (Hw : 0 < 1) by lia.
  assert (H1 : 1 <= 1) by lia.
  split; split; [exact Hw | | reflexivity |].
  - exact (proj1 (line_validation_atomic Color Some pack_rgb pack_rgba
                    (TSurface surface10) white [0; 0; 5; 5] 0 blank) Hw).
  - exact (proj2 (proj1 (proj2
             (line_validation_atomic Color Some pack_rgb pack_rgba
                (TSurface surface10_24) white [0; 0; 5; 5] 1 blank))
             (pack_rgb (format surface10_24) 255 255 255) surface10_24
             H1 eq_refl eq_refl) eq_refl eq_refl).
Defined.

Lemma line_wide_diagonal_witness :
  2 <> 1
  /\ segments [1; 1; 1; 5; 0; 0; 5; 5; 7; 7; 7; 9]
     = [(1, 1, 1, 5)] ++ (0, 0, 5, 5) :: [(7, 7, 7, 9)]
  /\ fst (line_argb (TSurface surface10) white (flat [(1, 1, 1, 5)]) 2 blank)
     = Ret tt
  /\ line_argb (TSurface surface10) white
       [1; 1; 1; 5; 0; 0; 5; 5; 7; 7; 7; 9] 2 blank
     = (Raise (UnsupportedError MsgWidth),
        snd (line_argb (TSurface surface10) white (flat [(1, 1, 1, 5)]) 2
               blank)).
Proof.
  assert (Hw : 2 <> 1) by lia.
  assert (H1 : 1 <= 2) by lia.
  assert (H0 : BytesPerPixel (format surface10) <> 0) by (cbn; discriminate).
  assert (H3 : BytesPerPixel (format surface10) <> 3) by (cbn; discriminate).
  split; [exact Hw|]. split; [reflexivity|].
  exact (proj1 (proj2 (line_wide_diagonal Color Some pack_rgb pack_rgba
                         (TSurface surface10) white
                         [1; 1; 1; 5; 0; 0; 5; 5; 7; 7; 7; 9] 2 blank Hw)
                  white_argb surface10 H1 eq_refl eq_refl eq_refl H0 H3)
           [(1, 1, 1, 5)] (0, 0, 5, 5) [(7, 7, 7, 9)]
           eq_refl eq_refl eq_refl).
Defined.

Lemma line_axis_aligned_is_fill_witness :
  1 <= 3
  /\ prepare_color_argb white (TSurface surface10) blank
     = (Ret white_argb, blank)
  /\ _get_target_surface (TSurface surface10) = ret surface10
  /\ line_argb (TSurface surface10) white [5; 2; 5; 10] 3 blank
     = fill_argb (TSurface surface10) white (rect_tuple (SDLRect 4 2 3 8))
         blank.
Proof.
  assert (H1 : 1 <= 3) by lia.
  assert (H0 : BytesPerPixel (format surface10) <> 0) by (cbn; discriminate).
  assert (H3 : BytesPerPixel (format surface10) <> 3) by (cbn; discriminate).
  split; [exact H1|]. split; [reflexivity|]. split; [reflexivity|].
  exact (proj2 (proj1 (line_axis_aligned_is_fill Color Some pack_rgb pack_rgba
                         (TSurface surface10) white white_argb surface10 3
                         blank 5 2 5 10 H1 eq_refl eq_refl H0 H3)
                  eq_refl)).
Defined.

Lemma writes_stay_in_clip_witness :
  _get_target_surface (TSurface surface10) = ret surface10
  /\ surface_ok surface10
  /\ clip_frame surface10 blank
       (snd (line_argb (TSurface surface10) white [2; 2; 20; 15] 1 blank))
  /\ clip_frame surface10 blank
       (snd (fill_argb (TSurface surface10) white
               (rect_tuple (SDLRect 5 5 10 10)) blank)).
Proof.
  split; [reflexivity|]. split; [exact surface10_ok|].
  exact (writes_stay_in_clip Color Some pack_rgb pack_rgba
           (TSurface surface10) surface10 white [2; 2; 20; 15] 1
           (rect_tuple (SDLRect 5 5 10 10)) blank eq_refl surface10_ok).
Defined.

Lemma line_outside_segment_type_error_witness :
  prepare_color_argb white (TSurface surface10) blank
  = (Ret white_argb, blank)
  /\ line_argb (TSurface surface10) white [20; 20; 30; 31] 1 blank
     = (Raise TypeError, blank).
Proof.
  split; [reflexivity|].
  exact (proj2 (line_outside_segment_type_error Color Some pack_rgb pack_rgba)
           white white_argb blank eq_refl).
Defined.



(** *** The further properties run on concrete calls *)

Lemma bresenham_pixel_count_witness :
  (4 = 2 \/ 4 = 4)
  /\ exists evs,
       fst (bresenham 4 (scan_frac surface10) 7 0 0 5 2 blank) = Ret tt
       /\ trace (snd (bresenham 4 (scan_frac surface10) 7 0 0 5 2 blank))
          = trace blank ++ evs
       /\ forallb is_pixel_event evs = true
       /\ Z.of_nat (length evs) = Z.max (Z.abs (5 - 0)) (Z.abs (2 - 0)) + 1.
Proof.
  assert (H4 : 4 = 2 \/ 4 = 4) by (right; reflexivity).
  split; [exact H4|].
  exact (bresenham_pixel_count 4 (scan_frac surface10) 7 0 0 5 2 blank H4).
Defined.

Lemma bresenham_connected_witness :
  (2 = 2 \/ 2 = 4)
  /\ exists pts,
       bresenham 2 (scan_frac surface10) 7 0 0 5 2 blank
       = (Ret tt, plot_all 2 (scan_frac surface10) 7 ((0, 0) :: pts) blank)
       /\ chained ((0, 0) :: pts).
Proof.
  assert (H2 : 2 = 2 \/ 2 = 4) by (left; reflexivity).
  split; [exact H2|].
  exact (bresenham_connected 2 (scan_frac surface10) 7 0 0 5 2 blank H2).
Defined.


Lemma draw_only_on_surface_or_sprite_witness :
  (forall s, TPointer surface10 <> TSurface s)
  /\ (forall s, TPointer surface10 <> TSprite s)
  /\ 1 <= 1
  /\ fill_argb (TPointer surface10) white PyNone blank
     = (Raise TypeError, blank)
  /\ line_argb (TPointer surface10) white [0; 0; 3; 3] 1 blank
     = (Raise TypeError, blank).
Proof.
  assert (H1 : forall s, TPointer surface10 <> TSurface s)
    by (intros s; discriminate).
  assert (H2 : forall s, TPointer surface10 <> TSprite s)
    by (intros s; discriminate).
  assert (Hw : 1 <= 1) by lia.
  split; [exact H1|]. split; [exact H2|]. split; [exact Hw|].
  pose proof (proj2 (proj2 (draw_only_on_surface_or_sprite
                              Color Some pack_rgb pack_rgba))
                (TPointer surface10) white white blank H1 H2 eq_refl)
    as [F L].
  split; [exact (F PyNone) | exact (L [0; 0; 3; 3] 1 Hw)].
Defined.

Lemma fill_tuple_area_fields_witness :
  prepare_color_argb white (TSurface surface10) blank
  = (Ret white_argb, blank)
  /\ _get_target_surface (TSurface surface10) = ret surface10
  /\ [1; 2; 3] <> []
  /\ fill_argb (TSurface surface10) white (PySeq (map PyInt [1; 2; 3])) blank
     = (Raise (ValueError MsgArea), blank).
Proof.
  assert (Hne : [1; 2; 3] <> []) by discriminate.
  split; [reflexivity|]. split; [reflexivity|]. split; [exact Hne|].
  exact (fill_tuple_area_fields Color Some pack_rgb pack_rgba
           (TSurface surface10) white white_argb surface10 blank [1; 2; 3]
           eq_refl eq_refl Hne).
Defined.

Lemma fill_bad_area_fills_nothing_witness :
  prepare_color_argb white (TSurface surface10) blank
  = (Ret white_argb, blank)
  /\ _get_target_surface (TSurface surface10) = ret surface10
  /\ [SDLRect 0 0 2 2] <> []
  /\ coerce_rect (PySeq [PyInt 1; PyInt 2]) = raise (ValueError MsgArea)
  /\ fill_argb (TSurface surface10) white
       (PySeq (map rect_tuple [SDLRect 0 0 2 2]
               ++ PySeq [PyInt 1; PyInt 2] :: [rect_tuple (SDLRect 3 3 2 2)]))
       blank
     = (Raise (ValueError MsgArea), blank).
Proof.
  assert (Hne : [SDLRect 0 0 2 2] <> []) by discriminate.
  split; [reflexivity|]. split; [reflexivity|]. split; [exact Hne|].
  split; [reflexivity|].
  exact (fill_bad_area_fills_nothing Color Some pack_rgb pack_rgba
           (TSurface surface10) white white_argb surface10 blank
           [SDLRect 0 0 2 2] (PySeq [PyInt 1; PyInt 2])
           [rect_tuple (SDLRect 3 3 2 2)] eq_refl eq_refl Hne eq_refl).
Defined.

Lemma line_batch_split_witness :
  Z.of_nat (length [1; 1; 1; 5]) mod 4 = 0
  /\ Z.of_nat (length [0; 0; 3; 3]) mod 4 = 0
  /\ line_argb (TSurface surface10) white ([1; 1; 1; 5] ++ [0; 0; 3; 3]) 1
       blank
     = bind (line_argb (TSurface surface10) white [1; 1; 1; 5] 1)
         (fun _ => line_argb (TSurface surface10) white [0; 0; 3; 3] 1)
         blank.
Proof.
  split; [reflexivity|]. split; [reflexivity|].
  exact (line_batch_split Color Some pack_rgb pack_rgba
           (TSurface surface10) white [1; 1; 1; 5] [0; 0; 3; 3] 1 blank
           eq_refl eq_refl).
Defined.

Lemma line_ends_and_late_errors_witness :
  fst (line_argb (TSurface surface10) white [1; 1; 1; 5; 0; 0; 5; 5] 2 blank)
  = Raise (UnsupportedError MsgWidth)
  /\ (snd (line_argb (TSurface surface10) white [1; 1; 1; 5; 0; 0; 5; 5] 2
             blank) = blank
      \/ (UnsupportedError MsgWidth = TypeError /\ 2 = 1)
      \/ (UnsupportedError MsgWidth = UnsupportedError MsgWidth /\ 2 <> 1)).
Proof.
  split; [reflexivity|].
  exact (proj2 (line_ends_and_late_errors Color Some pack_rgb pack_rgba
                  (TSurface surface10) white [1; 1; 1; 5; 0; 0; 5; 5] 2
                  blank)
           (UnsupportedError MsgWidth) eq_refl).
Defined.

Lemma line_axis_aligned_batch_witness :
  1 <= 3
  /\ prepare_color_argb white (TSurface surface10) blank
     = (Ret white_argb, blank)
  /\ _get_target_surface (TSurface surface10) = ret surface10
  /\ forallb axis_aligned [(5, 2, 5, 8); (1, 4, 7, 4)] = true
  /\ trace (snd (line_argb (TSurface surface10) white
                   (flat [(5, 2, 5, 8); (1, 4, 7, 4)]) 3 blank))
     = [EvFillRect surface10 (Some (SDLRect 4 2 3 6)) white_argb;
        EvFillRect surface10 (Some (SDLRect 1 3 6 3)) white_argb].
Proof.
  assert (H1 : 1 <= 3) by lia.
  assert (H0 : BytesPerPixel (format surface10) <> 0) by (cbn; discriminate).
  assert (H3 : BytesPerPixel (format surface10) <> 3) by (cbn; discriminate).
  split; [exact H1|]. split; [reflexivity|]. split; [reflexivity|].
  split; [reflexivity|].
  exact (proj2 (line_axis_aligned_batch Color Some pack_rgb pack_rgba
                  (TSurface surface10) white white_argb surface10 3 blank
                  [(5, 2, 5, 8); (1, 4, 7, 4)]
                  H1 eq_refl eq_refl H0 H3 eq_refl)).
Defined.

Lemma line_vertical_coverage_witness :
  1 <= 1
  /\ prepare_color_argb white (TSurface surface10) blank
     = (Ret white_argb, blank)
  /\ _get_target_surface (TSurface surface10) = ret surface10
  /\ rect_in_c_int (mkRect (5 - 1 / 2) (Z.min 2 8) 1 (Z.abs (8 - 2)))
  /\ 0 <= 5 < stride surface10
  /\ pixel surface10
       (snd (line_argb (TSurface surface10) white [5; 2; 5; 8] 1 blank)) 5 8
     = pixel surface10 blank 5 (Z.max 2 8).
Proof.
  assert (H1 : 1 <= 1) by lia.
  assert (H0 : BytesPerPixel (format surface10) <> 0) by (cbn; discriminate).
  assert (H3 : BytesPerPixel (format surface10) <> 3) by (cbn; discriminate).
  assert (Hp : 0 <= 5 < stride surface10) by (cbn; lia).
  assert (Hr : rect_in_c_int (mkRect (5 - 1 / 2) (Z.min 2 8) 1
                                     (Z.abs (8 - 2))))
    by (unfold rect_in_c_int; cbn; lia).
  split; [exact H1|]. split; [reflexivity|]. split; [reflexivity|].
  split; [exact Hr|]. split; [exact Hp|].
  exact (proj2 (line_vertical_coverage Color Some pack_rgb pack_rgba
                  (TSurface surface10) white white_argb surface10 1 blank
                  5 2 8 H1 eq_refl eq_refl H0 H3 Hr) 5 Hp).
Defined.

Lemma line_horizontal_coverage_witness :
  1 <= 1
  /\ prepare_color_argb white (TSurface surface10) blank
     = (Ret white_argb, blank)
  /\ _get_target_surface (TSurface surface10) = ret surface10
  /\ 1 <> 7
  /\ rect_in_c_int (mkRect (Z.min 1 7) (4 - 1 / 2) (Z.abs (7 - 1)) 1)
  /\ 0 <= 1 < stride surface10
  /\ pixel surface10
       (snd (line_argb (TSurface surface10) white [1; 4; 7; 4] 1 blank)) 1 4
     = white_argb mod 2 ^ (8 * BytesPerPixel (format surface10)).
Proof.
  assert (H1 : 1 <= 1) by lia.
  assert (H0 : BytesPerPixel (format surface10) <> 0) by (cbn; discriminate).
  assert (H3 : BytesPerPixel (format surface10) <> 3) by (cbn; discriminate).
  assert (Hx : 1 <> 7) by lia.
  assert (Hp : 0 <= 1 < stride surface10) by (cbn; lia).
  assert (Hr : rect_in_c_int (mkRect (Z.min 1 7) (4 - 1 / 2) (Z.abs (7 - 1))
                                     1))
    by (unfold rect_in_c_int; cbn; lia).
  split; [exact H1|]. split; [reflexivity|]. split; [reflexivity|].
  split; [exact Hx|]. split; [exact Hr|]. split; [exact Hp|].
  exact (line_horizontal_coverage Color Some pack_rgb pack_rgba
           (TSurface surface10) white white_argb surface10 1 blank
           1 7 4 H1 eq_refl eq_refl H0 H3 Hx Hr 1 4 Hp).
Defined.

Lemma line_uses_one_color_witness :
  1 <= 1
  /\ prepare_color_argb white (TSurface surface10) blank
     = (Ret white_argb, blank)
  /\ _get_target_surface (TSurface surface10) = ret surface10
  /\ Z.of_nat (length [1; 1; 1; 5; 0; 0; 3; 3]) mod 4 = 0
  /\ exists evs,
       trace (snd (line_argb (TSurface surface10) white
                     [1; 1; 1; 5; 0; 0; 3; 3] 1 blank))
       = trace blank ++ evs
       /\ Forall (fun ev =>
                    (exists r, ev = EvFillRect surface10 (Some r) white_argb)
                    \/ (exists idx,
                          ev = EvPixel idx
                                 (white_argb mod
                                  2 ^ (8 * BytesPerPixel
                                             (format surface10)))))
                 evs.
Proof.
  assert (H1 : 1 <= 1) by lia.
  assert (H0 : BytesPerPixel (format surface10) <> 0) by (cbn; discriminate).
  assert (H3 : BytesPerPixel (format surface10) <> 3) by (cbn; discriminate).
  split; [exact H1|]. split; [reflexivity|]. split; [reflexivity|].
  split; [reflexivity|].
  exact (line_uses_one_color Color Some pack_rgb pack_rgba
           (TSurface surface10) white white_argb surface10
           [1; 1; 1; 5; 0; 0; 3; 3] 1 blank
           H1 eq_refl eq_refl eq_refl H0 H3).
Defined.
